(** * Metro-GraphRAG-Madrid: recommendation pipeline and evaluation harness

    Shallow embedding of [src/src/agent/recommender.py] (entity extraction,
    context retrieval, route ranking, prompt construction, orchestration)
    and of the GraphRAG hallucination check of [src/src/agent/evaluate.py].

    Python strings are sequences of code points: [pystr := list N].
    String literals of the source are written as Rocq string literals
    (UTF-8 bytes) and decoded to code points with [u]. *)

From Stdlib Require Import List Bool ZArith NArith Ascii String Lia.
From Stdlib Require Import Sorting.Permutation Sorting.Sorted.
Import ListNotations.

Open Scope string_scope.
Open Scope list_scope.
Open Scope N_scope.

(* ------------------------------------------------------------------ *)
(** ** Python text *)

Definition pystr := list N.

(** UTF-8 decoding of a Rocq string literal into code points (1 to 3
    byte sequences, which covers every literal of the source). *)
Fixpoint u (s : string) : pystr :=
  match s with
  | EmptyString => []
  | String a rest =>
      let b := N_of_ascii a in
      if b <? 128 then b :: u rest
      else if b <? 224 then
        match rest with
        | String a2 rest2 =>
            ((b - 192) * 64 + (N_of_ascii a2 - 128)) :: u rest2
        | EmptyString => [b]
        end
      else
        match rest with
        | String a2 (String a3 rest3) =>
            ((b - 224) * 4096 + (N_of_ascii a2 - 128) * 64
             + (N_of_ascii a3 - 128)) :: u rest3
        | _ => [b]
        end
  end.

Definition in_range (lo hi c : N) : bool := (lo <=? c) && (c <=? hi).

(** Simple case mapping of CPython ([_PyUnicode_ToLowercase] and
    [_PyUnicode_ToUppercase]) on ASCII letters and on the Latin-1 letter
    pairs À-Þ / à-þ (× and ÷ excepted); other code points are mapped to
    themselves.  Every character a template can capture lies in this
    range. *)
Definition to_lower (c : N) : N :=
  if in_range 65 90 c then c + 32
  else if in_range 192 222 c && negb (c =? 215) then c + 32
  else c.

Definition to_upper (c : N) : N :=
  if in_range 97 122 c then c - 32
  else if in_range 224 254 c && negb (c =? 247) then c - 32
  else c.

(** [str.isspace] / regex [\s] on [str] patterns. *)
Definition space_chars : list N :=
  [9; 10; 11; 12; 13; 28; 29; 30; 31; 32; 133; 160; 5760;
   8192; 8193; 8194; 8195; 8196; 8197; 8198; 8199; 8200; 8201; 8202;
   8232; 8233; 8239; 8287; 12288].

Definition is_space (c : N) : bool := existsb (N.eqb c) space_chars.

(** Cased characters (Lu, Ll, Lt and Other_Lowercase) of Latin-1. *)
Definition is_cased (c : N) : bool :=
  negb (to_lower c =? c) || negb (to_upper c =? c)
  || (c =? 170) || (c =? 181) || (c =? 186) || (c =? 223) || (c =? 255).

(** [str.lower()] *)
Definition py_lower (s : pystr) : pystr := map to_lower s.

(** [str.strip()] *)
Fixpoint lstrip (s : pystr) : pystr :=
  match s with
  | c :: t => if is_space c then lstrip t else s
  | [] => []
  end.

Definition py_strip (s : pystr) : pystr := rev (lstrip (rev (lstrip s))).

(** [str.title()]: a character following a cased character is lowered,
    any other one is title-cased (upper-cased for Latin-1). *)
Fixpoint title_from (prev_cased : bool) (s : pystr) : pystr :=
  match s with
  | [] => []
  | c :: t =>
      (if prev_cased then to_lower c else to_upper c)
        :: title_from (is_cased c) t
  end.

Definition py_title (s : pystr) : pystr := title_from false s.

(** [needle in haystack] for strings. *)
Fixpoint is_prefix (p s : pystr) : bool :=
  match p, s with
  | [], _ => true
  | a :: p', b :: s' => (a =? b) && is_prefix p' s'
  | _ :: _, [] => false
  end.

Fixpoint py_in (needle hay : pystr) : bool :=
  is_prefix needle hay ||
  match hay with
  | [] => false
  | _ :: t => py_in needle t
  end.

(** Python truthiness of an optional string ([None] and [""] are false). *)
Definition truthy (o : option pystr) : bool :=
  match o with
  | Some (_ :: _) => true
  | _ => false
  end.

(* ------------------------------------------------------------------ *)
(** ** Python [re] with [re.IGNORECASE]

    Backtracking matcher in continuation-passing style: alternatives are
    tried left to right, a greedy repetition tries one more iteration
    before the continuation, a lazy one the continuation first.  This is
    the order in which [sre] explores matches, so the first success found
    is the match Python returns.  Only group 1 is tracked. *)

Inductive regex : Type :=
| Cls (p : N -> bool)          (* one character satisfying [p] *)
| Seq (r1 r2 : regex)
| Alt (r1 r2 : regex)
| Star (greedy : bool) (r : regex)
| Eps
| EndAnchor                    (* [$] without MULTILINE *)
| Group (r : regex).           (* capturing group 1 *)

Definition group := option pystr.

Section Matcher.
Context {A : Type}.

(** [r*] / [r*?] after [n] more possible iterations; [m] matches the
    body.  A repetition only iterates when its body consumed input (as
    [sre] does for bodies that can match empty), so at most [length s]
    iterations are possible, which is the bound given by [mtch]. *)
Fixpoint star_loop (m : pystr -> group -> (pystr -> group -> option A) -> option A)
         (greedy : bool) (k : pystr -> group -> option A)
         (n : nat) (s : pystr) (g : group) : option A :=
  let once :=
    match n with
    | O => None
    | S n' =>
        m s g (fun s' g' =>
          if (List.length s' <? List.length s)%nat
          then star_loop m greedy k n' s' g' else None)
    end in
  if greedy then
    match once with Some x => Some x | None => k s g end
  else
    match k s g with Some x => Some x | None => once end.

Fixpoint mtch (r : regex) (s : pystr) (g : group)
         (k : pystr -> group -> option A) {struct r} : option A :=
  match r with
  | Cls p =>
      match s with
      | c :: t => if p c then k t g else None
      | [] => None
      end
  | Seq r1 r2 => mtch r1 s g (fun s' g' => mtch r2 s' g' k)
  | Alt r1 r2 =>
      match mtch r1 s g k with
      | Some x => Some x
      | None => mtch r2 s g k
      end
  | Star greedy r1 => star_loop (mtch r1) greedy k (List.length s) s g
  | Eps => k s g
  | EndAnchor =>
      match s with
      | [] => k s g
      | [c] => if c =? 10 then k s g else None          (* before a final newline *)
      | _ => None
      end
  | Group r1 =>
      mtch r1 s g (fun s' g' =>
        k s' (Some (firstn (List.length s - List.length s') s)))
  end.

End Matcher.

(** Matching under IGNORECASE: a literal matches when the lowered
    characters agree; a class matches when the character or its case
    partner is in the class. *)
Definition ci (p : N -> bool) (c : N) : bool := p (to_lower c) || p (to_upper c).

Definition lit_char (a : N) : regex := Cls (fun c => to_lower c =? to_lower a).

Fixpoint lit (s : pystr) : regex :=
  match s with
  | [] => Eps
  | [a] => lit_char a
  | a :: t => Seq (lit_char a) (lit t)
  end.

Definition L (s : string) : regex := lit (u s).

Definition ws : regex := Cls is_space.

(** [r+], [r+?], [r*], [r?] *)
Definition plus (r : regex) : regex := Seq r (Star true r).
Definition plus_lazy (r : regex) : regex := Seq r (Star false r).
Definition star (r : regex) : regex := Star true r.
Definition opt (r : regex) : regex := Alt r Eps.

Fixpoint alts (rs : list regex) : regex :=
  match rs with
  | [] => Eps
  | [r] => r
  | r :: t => Alt r (alts t)
  end.

Fixpoint seqs (rs : list regex) : regex :=
  match rs with
  | [] => Eps
  | [r] => r
  | r :: t => Seq r (seqs t)
  end.

Definition mem (cs : pystr) (c : N) : bool := existsb (N.eqb c) cs.

(** [[A-ZÁ-Ú]] *)
Definition cls_upper : regex :=
  Cls (ci (fun c => in_range 65 90 c || in_range 193 218 c)).

(** [[a-záéíóúñ\s]] *)
Definition cls_lower_sp : regex :=
  Cls (ci (fun c => in_range 97 122 c || mem (u "áéíóúñ") c || is_space c)).

(** [[A-ZÁ-Úa-záéíóúñ\s]] *)
Definition cls_any_sp : regex :=
  Cls (ci (fun c => in_range 65 90 c || in_range 193 218 c
                    || in_range 97 122 c || mem (u "áéíóúñ") c
                    || is_space c)).

(** [re.search(pattern, s, re.IGNORECASE)]: the first start position,
    from left to right, at which the pattern matches; returns group 1. *)
Fixpoint search (r : regex) (s : pystr) : option group :=
  match mtch r s None (fun _ g => Some g) with
  | Some g => Some g
  | None =>
      match s with
      | [] => None
      | _ :: t => search r t
      end
  end.

(** [re.findall] for a pattern with one group: scans left to right,
    resuming at the end of each match (one character further after an
    empty match); an unset group is reported as [""]. *)
Fixpoint findall_from (fuel : nat) (r : regex) (s : pystr) : list pystr :=
  match fuel with
  | O => []
  | S f =>
      match mtch r s None (fun s' g => Some (s', g)) with
      | Some (s', g) =>
          (match g with Some x => x | None => [] end) ::
          (if (List.length s' <? List.length s)%nat then findall_from f r s'
           else match s with [] => [] | _ :: t => findall_from f r t end)
      | None =>
          match s with
          | [] => []
          | _ :: t => findall_from f r t
          end
      end
  end.

Definition findall (r : regex) (s : pystr) : list pystr :=
  findall_from (S (List.length s)) r s.

(* ------------------------------------------------------------------ *)
(** ** Phase 1: entity extraction ([_extract_entities]) *)

Record Entities := mkEntities {
  estacion_origen : option pystr;
  estudio : option pystr
}.

(** [desde\s+([A-ZÁ-Ú][a-záéíóúñ\s]+?)(?:\s+hasta|\s+a|\s+,|\s+quiero|\s+busco|\s+para)] *)
Definition estacion_pat1 : regex :=
  seqs [L "desde"; plus ws; Group (Seq cls_upper (plus_lazy cls_lower_sp));
        alts [Seq (plus ws) (L "hasta"); Seq (plus ws) (L "a");
              Seq (plus ws) (L ","); Seq (plus ws) (L "quiero");
              Seq (plus ws) (L "busco"); Seq (plus ws) (L "para")]].

(** [origen\s+([A-ZÁ-Ú][a-záéíóúñ\s]+?)(?:\s+hasta|\s+,)] *)
Definition estacion_pat2 : regex :=
  seqs [L "origen"; plus ws; Group (Seq cls_upper (plus_lazy cls_lower_sp));
        alts [Seq (plus ws) (L "hasta"); Seq (plus ws) (L ",")]].

(** [estoy\s+en\s+([A-ZÁ-Ú][a-záéíóúñ\s]+?)(?:\s+y|\s+,)] *)
Definition estacion_pat3 : regex :=
  seqs [L "estoy"; plus ws; L "en"; plus ws;
        Group (Seq cls_upper (plus_lazy cls_lower_sp));
        alts [Seq (plus ws) (L "y"); Seq (plus ws) (L ",")]].

Definition estacion_patterns : list regex :=
  [estacion_pat1; estacion_pat2; estacion_pat3].

(** [(?:Máster|Master|Grado)\s+en\s+([A-ZÁ-Úa-záéíóúñ\s]+?)(?:\s*$|\s*\?|\s+desde|\s+,)] *)
Definition estudio_pat1 : regex :=
  seqs [alts [L "Máster"; L "Master"; L "Grado"]; plus ws; L "en"; plus ws;
        Group (plus_lazy cls_any_sp);
        alts [Seq (star ws) EndAnchor; Seq (star ws) (L "?");
              Seq (plus ws) (L "desde"); Seq (plus ws) (L ",")]].

(** [estudiar\s+([A-ZÁ-Úa-záéíóúñ\s]+?)(?:\s+desde|\s+en|\s*\?|\s*$)] *)
Definition estudio_pat2 : regex :=
  seqs [L "estudiar"; plus ws; Group (plus_lazy cls_any_sp);
        alts [Seq (plus ws) (L "desde"); Seq (plus ws) (L "en");
              Seq (star ws) (L "?"); Seq (star ws) EndAnchor]].

(** [(?:programa|carrera)\s+(?:de\s+)?([A-ZÁ-Úa-záéíóúñ\s]+?)(?:\s+desde|\s*\?|\s*$)] *)
Definition estudio_pat3 : regex :=
  seqs [alts [L "programa"; L "carrera"]; plus ws; opt (Seq (L "de") (plus ws));
        Group (plus_lazy cls_any_sp);
        alts [Seq (plus ws) (L "desde"); Seq (star ws) (L "?");
              Seq (star ws) EndAnchor]].

Definition estudio_patterns : list regex :=
  [estudio_pat1; estudio_pat2; estudio_pat3].

Definition estaciones_comunes : list pystr :=
  map u ["Sol"; "Atocha"; "Chamartín"; "Moncloa"; "Ciudad Universitaria";
         "Príncipe Pío"; "Pacífico"; "Plaza de Castilla"].

Definition estudios_comunes : list pystr :=
  map u ["Inteligencia Artificial"; "Ciencia e Ingeniería de Datos";
         "Machine Learning"; "Big Data"; "Ciberseguridad"].

(** [match.group(1)]; every template's group 1 is mandatory, so a match
    always sets it. *)
Definition group1 (g : group) : pystr :=
  match g with Some x => x | None => [] end.

(** [for pattern in patterns: match = re.search(...); if match:
       entities[field] = post(match.group(1)); break] *)
Fixpoint template_loop (post : pystr -> pystr) (pats : list regex)
         (query : pystr) (cur : option pystr) : option pystr :=
  match pats with
  | [] => cur
  | p :: rest =>
      match search p query with
      | Some g => Some (post (group1 g))
      | None => template_loop post rest query cur
      end
  end.

(** [if not entities[field]: for x in gazetteer:
       if x.lower() in query.lower(): entities[field] = x; break] *)
Fixpoint gazetteer_loop (gaz : list pystr) (query : pystr)
         (cur : option pystr) : option pystr :=
  match gaz with
  | [] => cur
  | x :: rest =>
      if py_in (py_lower x) (py_lower query) then Some x
      else gazetteer_loop rest query cur
  end.

Definition fallback (gaz : list pystr) (query : pystr) (cur : option pystr)
  : option pystr :=
  if truthy cur then cur else gazetteer_loop gaz query cur.

Definition extract_entities (query : pystr) : Entities :=
  let origen0 := template_loop (fun g => py_title (py_strip g))
                               estacion_patterns query None in
  let origen := fallback estaciones_comunes query origen0 in
  let est0 := template_loop py_strip estudio_patterns query None in
  let est := fallback estudios_comunes query est0 in
  mkEntities origen est.

(* ------------------------------------------------------------------ *)
(** ** Python exceptions

    A computation either returns or raises; [try_except] is a Python
    [try: ... except Exception as e: ...] block. *)

Inductive result (T : Type) : Type :=
| Ok (x : T)
| Raise (msg : pystr).
Arguments Ok {T} x.
Arguments Raise {T} msg.

Definition bind {T U : Type} (m : result T) (f : T -> result U) : result U :=
  match m with
  | Ok x => f x
  | Raise e => Raise e
  end.

Definition try_except {T : Type} (m : result T) (h : pystr -> result T) : result T :=
  match m with
  | Ok x => Ok x
  | Raise e => h e
  end.

Notation "x <- m ;; k" := (bind m (fun x => k))
  (at level 61, m at next level, right associativity).

(* ------------------------------------------------------------------ *)
(** ** Documents and routes *)

(** A study sub-document: [nombre] may be absent ([e.get("nombre", "")]),
    [tipo] is required by the prompt, [creditos] is optional. *)
Record Estudio := mkEstudio {
  est_nombre : option pystr;
  est_tipo : pystr;
  est_creditos : option Z
}.

Record EstacionCercana := mkEstacionCercana {
  nombre_estacion : option pystr;
  rol : option pystr;
  minutos_andando : option Z
}.

(** A campus document of the [campus] collection, and the campus entry
    of the context (same four keys, [estudios] filtered). *)
Record Campus := mkCampus {
  c_nombre : option pystr;
  c_universidad : option pystr;
  c_estudios : list Estudio;
  c_estaciones_cercanas : list EstacionCercana
}.

(** A route dictionary built by [_calculate_routes_neo4j]. *)
Record Ruta := mkRuta {
  r_campus : option pystr;
  r_universidad : option pystr;
  r_estacion_destino : pystr;
  r_rol_estacion : option pystr;
  r_minutos_andando : option Z;
  r_ruta : list pystr;
  r_num_estaciones : Z;
  r_num_cambios_linea : Z;
  r_lineas_usadas : list (option Z)
}.

Record Context := mkContext {
  ctx_campus : list Campus;
  ctx_rutas : list Ruta;
  ctx_estacion_origen : option pystr;
  ctx_estudio_buscado : option pystr
}.

(** External capabilities.  [doc_find q] is [self.db.campus.find] with the
    case-insensitive [$regex] filter on [estudios.nombre] (it may raise);
    [graph_path o d] is the [MATCH ... shortestPath(...)] part of the
    Cypher query of [_calculate_routes_neo4j]: the path's node names and
    the [lineaId] of each relationship ([None] for a null property), or
    no path (it may raise). *)
Record Path := mkPath {
  path_nodes : list pystr;
  path_lineas : list (option Z)
}.

Definition doc_capability := pystr -> result (list Campus).
Definition graph_capability := pystr -> pystr -> result (option Path).

(* ------------------------------------------------------------------ *)
(** ** Phase 2: retrieval ([_retrieve_context]) *)

Definition default_str (o : option pystr) : pystr :=
  match o with Some s => s | None => [] end.

(** [_search_campus_mongodb] *)
Definition campus_of_doc (estudio_query : pystr) (campus : Campus)
  : list Campus :=
  let estudios_match :=
    filter (fun e => py_in (py_lower estudio_query)
                           (py_lower (default_str (est_nombre e))))
           (c_estudios campus) in
  match estudios_match with
  | [] => []
  | _ :: _ =>
      [mkCampus (c_nombre campus) (c_universidad campus) estudios_match
                (c_estaciones_cercanas campus)]
  end.

Definition search_campus_mongodb (doc_find : doc_capability)
           (estudio_query : pystr) : result (list Campus) :=
  try_except
    (campus_cursor <- doc_find estudio_query ;;
     Ok (flat_map (campus_of_doc estudio_query) campus_cursor))
    (fun _ => Ok []).

(** The rest of the Cypher query:
    [UNWIND range(0, size(lineas_ruta) - 2) AS i] followed by the
    aggregation [sum(cambio)] grouped by the returned columns.  A path of
    fewer than two relationships unwinds to no row, so the query returns
    no record.  [lineas_ruta[i] <> lineas_ruta[i+1]] is null when either
    side is null, and [CASE WHEN null] takes the [ELSE 0] branch. *)
Definition cambio (a b : option Z) : Z :=
  match a, b with
  | Some x, Some y => if Z.eqb x y then 0 else 1
  | _, _ => 0
  end.

Fixpoint sum_cambios (ls : list (option Z)) : Z :=
  match ls with
  | a :: ((b :: _) as t) => (cambio a b + sum_cambios t)%Z
  | _ => 0%Z
  end.

Record Row := mkRow {
  row_ruta : list pystr;
  row_num_estaciones : Z;
  row_num_cambios_linea : Z;
  row_lineas_ruta : list (option Z)
}.

Definition cypher_row (p : Path) : option Row :=
  if (List.length (path_lineas p) <? 2)%nat then None
  else Some (mkRow (path_nodes p) (Z.of_nat (List.length (path_lineas p)))
                   (sum_cambios (path_lineas p)) (path_lineas p)).

(** [session.run(...).single()] *)
Definition run_single (graph_path : graph_capability) (o d : pystr)
  : result (option Row) :=
  p <- graph_path o d ;;
  Ok (match p with Some p => cypher_row p | None => None end).

(** [list(set(xs))]: the order of a Python set is that of its hash table;
    it is modelled as first occurrences, no property depends on it. *)
Fixpoint dedup (xs : list (option Z)) : list (option Z) :=
  match xs with
  | [] => []
  | x :: t => x :: filter (fun y => negb (match x, y with
                                          | Some a, Some b => Z.eqb a b
                                          | None, None => true
                                          | _, _ => false end)) (dedup t)
  end.

Definition ruta_of_row (campus : Campus) (ec : EstacionCercana)
           (destino : pystr) (row : Row) : Ruta :=
  mkRuta (c_nombre campus) (c_universidad campus) destino (rol ec)
         (minutos_andando ec) (row_ruta row) (row_num_estaciones row)
         (row_num_cambios_linea row) (dedup (row_lineas_ruta row)).

(** One iteration of the inner loop, with its [try/except]. *)
Definition route_step (graph_path : graph_capability) (origen : pystr)
           (campus : Campus) (rutas : list Ruta) (ec : EstacionCercana)
  : result (list Ruta) :=
  match nombre_estacion ec with
  | None | Some [] => Ok rutas                               (* continue *)
  | Some destino =>
      try_except
        (result <- run_single graph_path origen destino ;;
         match result with
         | Some row => Ok (rutas ++ [ruta_of_row campus ec destino row])%list
         | None => Ok rutas
         end)
        (fun _ => Ok rutas)
  end.

Fixpoint fold_result {T U : Type} (f : T -> U -> result T) (acc : T)
         (xs : list U) : result T :=
  match xs with
  | [] => Ok acc
  | x :: t => a <- f acc x ;; fold_result f a t
  end.

Definition campus_step (graph_path : graph_capability) (origen : pystr)
           (rutas : list Ruta) (campus : Campus) : result (list Ruta) :=
  fold_result (route_step graph_path origen campus) rutas
              (c_estaciones_cercanas campus).

(** Sort key [(x["num_cambios_linea"], x["num_estaciones"])], compared as
    Python compares tuples. *)
Definition key_le (a b : Ruta) : bool :=
  (r_num_cambios_linea a <? r_num_cambios_linea b)%Z
  || ((r_num_cambios_linea a =? r_num_cambios_linea b)%Z
      && (r_num_estaciones a <=? r_num_estaciones b)%Z).

(** [list.sort(key=...)] is stable; the output of a stable sort is
    determined by the key order, so it is computed here by a stable
    insertion sort. *)
Fixpoint insert_route (x : Ruta) (l : list Ruta) : list Ruta :=
  match l with
  | [] => [x]
  | y :: t => if key_le x y then x :: y :: t else y :: insert_route x t
  end.

Fixpoint sort_routes (l : list Ruta) : list Ruta :=
  match l with
  | [] => []
  | x :: t => insert_route x (sort_routes t)
  end.

(** [_calculate_routes_neo4j]: opening the session ([driver.session()])
    performs no I/O; every query runs inside the [try]. *)
Definition calculate_routes_neo4j (graph_path : graph_capability)
           (estacion_origen : pystr) (campus_list : list Campus)
  : result (list Ruta) :=
  rutas <- fold_result (campus_step graph_path estacion_origen) [] campus_list ;;
  Ok (sort_routes rutas).

(** [_retrieve_context] *)
Definition retrieve_context (doc_find : doc_capability)
           (graph_path : graph_capability) (entities : Entities)
  : result Context :=
  let estudio := estudio entities in
  let estacion_origen := estacion_origen entities in
  campus <- (match estudio with
             | Some ((_ :: _) as q) => search_campus_mongodb doc_find q
             | _ => Ok []
             end) ;;
  rutas <- (match estacion_origen, campus with
            | Some ((_ :: _) as o), _ :: _ =>
                calculate_routes_neo4j graph_path o campus
            | _, _ => Ok []
            end) ;;
  Ok (mkContext campus rutas estacion_origen estudio).

(* ------------------------------------------------------------------ *)
(** ** Phase 3: augmented prompt ([_build_augmented_prompt]) *)

Definition nl : pystr := [10].

Fixpoint digits (fuel : nat) (n : N) (acc : pystr) : pystr :=
  match fuel with
  | O => acc
  | S f =>
      let acc' := (48 + n mod 10) :: acc in
      if n <? 10 then acc' else digits f (n / 10) acc'
  end.

(** [str(n)] for an int *)
Definition str_N (n : N) : pystr := digits (N.size_nat n) n [].

Definition str_Z (z : Z) : pystr :=
  if (z <? 0)%Z then u "-" ++ str_N (Z.to_N (- z)) else str_N (Z.to_N z).

(** f-string interpolation of a value that may be [None] *)
Definition fmt_str (o : option pystr) : pystr :=
  match o with Some s => s | None => u "None" end.

Definition fmt_Z (o : option Z) : pystr :=
  match o with Some z => str_Z z | None => u "None" end.

Fixpoint join (sep : pystr) (xs : list pystr) : pystr :=
  match xs with
  | [] => []
  | [x] => x
  | x :: t => x ++ sep ++ join sep t
  end.

Definition sep_line : pystr := repeat 61 60.   (* '=' * 60 *)

Definition prompt_header (original_query : pystr) (entities : Entities) : pystr :=
  u "Eres un asistente experto en el Metro de Madrid y las universidades públicas de Madrid." ++ nl ++ nl ++
  u "DATOS REALES EXTRAÍDOS DE LA BASE DE DATOS:" ++ nl ++
  sep_line ++ nl ++ nl ++
  u "CONSULTA DEL USUARIO:" ++ nl ++
  original_query ++ nl ++ nl ++
  u "ENTIDADES IDENTIFICADAS:" ++ nl ++
  u "- Estación de origen: " ++ fmt_str (estacion_origen entities) ++ nl ++
  u "- Estudio buscado: " ++ fmt_str (estudio entities) ++ nl ++ nl ++
  u "CAMPUS QUE OFRECEN ESTE ESTUDIO:" ++ nl.

Definition render_estudio (e : Estudio) : pystr :=
  u "   - " ++ default_str (est_nombre e) ++ u " (" ++ est_tipo e ++ u ")" ++ nl ++
  match est_creditos e with
  | Some c => if (c =? 0)%Z then [] else u "     Créditos: " ++ str_Z c ++ nl
  | None => []
  end.

Definition render_campus (i : nat) (c : Campus) : pystr :=
  nl ++ str_N (N.of_nat i) ++ u ". " ++ fmt_str (c_nombre c) ++ u " (" ++
  fmt_str (c_universidad c) ++ u ")" ++ nl ++
  flat_map render_estudio (c_estudios c).

Definition render_linea (l : option Z) : pystr := u "L" ++ fmt_Z l.

Definition render_ruta (i : nat) (r : Ruta) : pystr :=
  nl ++ str_N (N.of_nat i) ++ u ". Hacia " ++ fmt_str (r_campus r) ++ u " (" ++
    fmt_str (r_universidad r) ++ u ")" ++ nl ++
  u "   Estación destino: " ++ r_estacion_destino r ++ u " (" ++
    fmt_str (r_rol_estacion r) ++ u ")" ++ nl ++
  u "   Distancia: " ++ str_Z (r_num_estaciones r) ++ u " estaciones" ++ nl ++
  u "   Transbordos: " ++ str_Z (r_num_cambios_linea r) ++ nl ++
  u "   Líneas usadas: " ++ join (u ", ") (map render_linea (r_lineas_usadas r)) ++ nl ++
  u "   Ruta: " ++ join (u " → ") (r_ruta r) ++ nl ++
  u "   Tiempo andando desde metro: " ++ fmt_Z (r_minutos_andando r) ++
    u " minutos" ++ nl.

(** [for i, x in enumerate(xs, start): ...] *)
Fixpoint enumerate_render {T : Type} (f : nat -> T -> pystr) (i : nat)
         (xs : list T) : pystr :=
  match xs with
  | [] => []
  | x :: t => f i x ++ enumerate_render f (S i) t
  end.

Definition no_campus_text : pystr :=
  nl ++ u "No se encontraron campus que ofrezcan este estudio." ++ nl.

Definition no_rutas_text : pystr :=
  nl ++ u "No se pudieron calcular rutas." ++ nl.

Definition prompt_footer : pystr :=
  nl ++ sep_line ++ nl ++ nl ++
  u "INSTRUCCIONES:" ++ nl ++
  u "1. Basándote ÚNICAMENTE en los datos anteriores (NO uses conocimiento general)" ++ nl ++
  u "2. Recomienda la mejor opción considerando:" ++ nl ++
  u "   - Menor número de transbordos" ++ nl ++
  u "   - Menor distancia total" ++ nl ++
  u "   - Tiempo de acceso andando desde la estación" ++ nl ++
  u "3. Explica claramente la ruta paso a paso" ++ nl ++
  u "4. Menciona el nombre exacto del estudio ofrecido" ++ nl ++
  u "5. Si no hay datos disponibles, indícalo claramente" ++ nl ++ nl ++
  u "Responde de forma concisa y estructurada:".

Definition build_augmented_prompt (original_query : pystr) (entities : Entities)
           (context_data : Context) : pystr :=
  prompt_header original_query entities ++
  (match ctx_campus context_data with
   | [] => no_campus_text
   | cs => enumerate_render render_campus 1 cs
   end) ++
  nl ++ nl ++ u "RUTAS CALCULADAS DESDE " ++ fmt_str (estacion_origen entities) ++
  u ":" ++ nl ++
  (match ctx_rutas context_data with
   | [] => no_rutas_text
   | rs => enumerate_render render_ruta 1 (firstn 3 rs)     (* Top 3 rutas *)
   end) ++
  prompt_footer.

(* ------------------------------------------------------------------ *)
(** ** Orchestrator *)

(** [_extract_sources] *)
Definition extract_sources (context_data : Context) : list pystr :=
  (match ctx_campus context_data with
   | [] => []
   | cs => [u "MongoDB: " ++ str_N (N.of_nat (List.length cs)) ++ u " campus"]
   end) ++
  (match ctx_rutas context_data with
   | [] => []
   | rs => [u "Neo4j: " ++ str_N (N.of_nat (List.length rs)) ++ u " rutas calculadas"]
   end).

(** [generate] of the providers of [llm_interface.py]: the API call and
    the post-processing run inside [try], an exception is returned as
    ["ERROR: ..."].  [api] is the provider's client call. *)
Definition generation_capability := pystr -> result pystr.

Definition provider_generate (api : generation_capability) (prompt : pystr)
  : result pystr :=
  try_except (text <- api prompt ;; Ok (py_strip text))
             (fun e => Ok (u "ERROR: " ++ e)).

Record Response := mkResponse {
  resp_method : pystr;
  resp_query : pystr;
  resp_entities : option Entities;
  resp_context : option Context;
  resp_response : pystr;
  resp_sources : list pystr
}.

Definition baseline_prompt (query : pystr) : pystr :=
  u "Eres un asistente experto en el Metro de Madrid y las universidades públicas de Madrid." ++ nl ++ nl ++
  u "Responde a la siguiente pregunta basándote únicamente en tu conocimiento general:" ++ nl ++ nl ++
  query ++ nl ++ nl ++
  u "Proporciona:" ++ nl ++
  u "1. La mejor ruta en metro" ++ nl ++
  u "2. Los campus que ofrecen el estudio mencionado" ++ nl ++
  u "3. Estimación de tiempo de viaje" ++ nl ++
  u "4. Número de transbordos necesarios" ++ nl ++ nl ++
  u "Respuesta:".

(** [baseline_llm] *)
Definition baseline_llm (api : generation_capability) (query : pystr)
  : result Response :=
  response <- provider_generate api (baseline_prompt query) ;;
  Ok (mkResponse (u "baseline") query None None response []).

(** [graphrag_recommendation] *)
Definition graphrag_recommendation (doc_find : doc_capability)
           (graph_path : graph_capability) (api : generation_capability)
           (query : pystr) : result Response :=
  let entities := extract_entities query in
  context_data <- retrieve_context doc_find graph_path entities ;;
  let augmented_prompt := build_augmented_prompt query entities context_data in
  response <- provider_generate api augmented_prompt ;;
  Ok (mkResponse (u "graphrag") query (Some entities) (Some context_data)
                 response (extract_sources context_data)).

Record Comparison := mkComparison {
  cmp_baseline : Response;
  cmp_graphrag : Response;
  graphrag_used_context : bool;
  campus_found : nat;
  routes_calculated : nat
}.

(** [compare_methods] *)
Definition compare_methods (doc_find : doc_capability)
           (graph_path : graph_capability) (api : generation_capability)
           (query : pystr) : result Comparison :=
  b <- baseline_llm api query ;;
  g <- graphrag_recommendation doc_find graph_path api query ;;
  Ok (mkComparison b g (negb (Nat.eqb (List.length (resp_sources g)) 0))
        (match resp_context g with Some c => List.length (ctx_campus c) | None => 0%nat end)
        (match resp_context g with Some c => List.length (ctx_rutas c) | None => 0%nat end)).

(* ------------------------------------------------------------------ *)
(** ** Evaluation harness: [detect_hallucinations_graphrag] *)

(** [campus\s+(?:de\s+)?([A-ZÁ-Úa-záéíóúñ\s]+)] *)
Definition campus_mention_pat : regex :=
  seqs [L "campus"; plus ws; opt (Seq (L "de") (plus ws)); Group (plus cls_any_sp)].

(** [campus["nombre"].lower()] raises when the name is [None]. *)
Fixpoint campus_reales (cs : list Campus) : result (list pystr) :=
  match cs with
  | [] => Ok []
  | c :: t =>
      match c_nombre c with
      | Some n => rest <- campus_reales t ;; Ok (py_lower n :: rest)
      | None => Raise (u "AttributeError: 'NoneType' object has no attribute 'lower'")
      end
  end.

Definition detect_hallucinations_graphrag (response : pystr)
           (context_data : Context) : result (list pystr) :=
  reales <- campus_reales (ctx_campus context_data) ;;
  Ok (flat_map (fun campus_mencionado =>
        let campus_clean := py_lower (py_strip campus_mencionado) in
        if truthy (Some campus_clean)
           && negb (existsb (fun real => py_in campus_clean real) reales)
           && (3 <? List.length campus_clean)%nat
        then [u "Campus mencionado no en contexto: " ++ campus_mencionado]
        else [])
     (findall campus_mention_pat response)).

Open Scope Z_scope.

(** ** Route ranking: the ordering of the spec *)

Definition same_key (a b : Ruta) : bool :=
  (r_num_cambios_linea a =? r_num_cambios_linea b)
  && (r_num_estaciones a =? r_num_estaciones b).

(** The ordering of the spec, on every adjacent pair. *)
Definition ranked (l : list Ruta) : Prop :=
  forall i a b, nth_error l i = Some a -> nth_error l (S i) = Some b ->
    r_num_cambios_linea a < r_num_cambios_linea b
    \/ (r_num_cambios_linea a = r_num_cambios_linea b
        /\ r_num_estaciones a <= r_num_estaciones b).

(** Routes found, in discovery order, before the sort. *)
Definition discovered_routes (graph_path : graph_capability)
           (estacion_origen : pystr) (campus_list : list Campus)
  : result (list Ruta) :=
  fold_result (campus_step graph_path estacion_origen) [] campus_list.


(* ------------------------------------------------------------------ *)
(** ** A concrete data set (documents, metro graph, generation) *)

Definition est_ia : Estudio :=
  mkEstudio (Some (u "Máster en Inteligencia Artificial")) (u "Máster") (Some 60%Z).
Definition est_fisica : Estudio :=
  mkEstudio (Some (u "Grado en Física")) (u "Grado") (Some 240%Z).
Definition est_ia_upm : Estudio :=
  mkEstudio (Some (u "Máster Universitario en Inteligencia Artificial")) (u "Máster") None.

Definition ec_ciudad_univ : EstacionCercana :=
  mkEstacionCercana (Some (u "Ciudad Universitaria")) (Some (u "principal")) (Some 5%Z).
Definition ec_metropolitano : EstacionCercana :=
  mkEstacionCercana (Some (u "Metropolitano")) (Some (u "secundaria")) (Some 12%Z).
Definition ec_sierra : EstacionCercana :=
  mkEstacionCercana (Some (u "Sierra de Guadalupe")) (Some (u "principal")) (Some 8%Z).

Definition campus_ucm : Campus :=
  mkCampus (Some (u "Ciudad Universitaria (UCM)")) (Some (u "Universidad Complutense de Madrid"))
           [est_fisica; est_ia] [ec_ciudad_univ; ec_metropolitano].
Definition campus_sur : Campus :=
  mkCampus (Some (u "Campus Sur (UPM)")) (Some (u "Universidad Politécnica de Madrid"))
           [est_ia_upm] [ec_sierra].

(** The document store returns both campus documents for any filter. *)
Definition demo_docs : doc_capability := fun _ => Ok [campus_ucm; campus_sur].

Definition demo_path (lineas : list (option Z)) (names : list string) : Path :=
  mkPath (map u names) lineas.

(** Sol-Ciudad Universitaria: 2 changes over 5 relationships;
    Sol-Metropolitano: 1 change over 4; the query to Sierra de Guadalupe
    raises. *)
Definition demo_graph : graph_capability := fun o d =>
  if list_eq_dec N.eq_dec d (u "Ciudad Universitaria") then
    Ok (Some (demo_path [Some 1; Some 1; Some 2; Some 6; Some 6]%Z
                ["Sol"; "Ópera"; "Tribunal"; "Plaza de España"; "Moncloa"; "Ciudad Universitaria"]))
  else if list_eq_dec N.eq_dec d (u "Metropolitano") then
    Ok (Some (demo_path [Some 1; Some 6; Some 6; Some 6]%Z
                ["Sol"; "Cuatro Caminos"; "Guzmán el Bueno"; "Vicente Aleixandre"; "Metropolitano"]))
  else Raise (u "ServiceUnavailable").

Definition demo_api : generation_capability := fun p => Ok (u "[MOCK] respuesta").

Definition demo_query : pystr :=
  u "Desde Sol, ¿cuál es el mejor campus para estudiar el Máster en Inteligencia Artificial?".

(* ------------------------------------------------------------------ *)
(** ** Views used by the statements *)

(** Regexes without a capturing group. *)
Fixpoint group_free (r : regex) : bool :=
  match r with
  | Group _ => false
  | Seq r1 r2 | Alt r1 r2 => group_free r1 && group_free r2
  | Star _ r1 => group_free r1
  | Cls _ | Eps | EndAnchor => true
  end.



Definition unwrap_or {T : Type} (d : T) (m : result T) : T :=
  match m with Ok x => x | Raise _ => d end.

Definition empty_context : Context := mkContext [] [] None None.

Definition demo_routes : list Ruta :=
  unwrap_or [] (calculate_routes_neo4j demo_graph (u "Sol") [campus_ucm; campus_sur]).

Definition demo_context : Context :=
  unwrap_or empty_context
    (retrieve_context demo_docs demo_graph (extract_entities demo_query)).

Definition route_counts_ok (r : Ruta) : Prop :=
  0 <= r_num_cambios_linea r <= r_num_estaciones r.

(** The graph capability [g1] fails wherever it differs from [g2], and [g2]
    reports "no path" there. *)
Definition raises_where_no_path (g1 g2 : graph_capability) : Prop :=
  forall o d, g1 o d = g2 o d \/ (exists e, g1 o d = Raise e /\ g2 o d = Ok None).


(* ------------------------------------------------------------------ *)
(** ** Evaluation harness: [validate_route] *)

(** A literal matched case-sensitively (the patterns of [validate_route]
    are compiled without flags and run on the lowered response). *)
Fixpoint lit_cs (s : pystr) : regex :=
  match s with
  | [] => Eps
  | [a] => Cls (fun c => (c =? a)%N)
  | a :: t => Seq (Cls (fun c => (c =? a)%N)) (lit_cs t)
  end.

Definition cs_lit (s : string) : regex := lit_cs (u s).

(** [\d]: the decimal digits (category Nd) of Latin-1. *)
Definition is_decimal (c : N) : bool := in_range 48 57 c.

Definition digit : regex := Cls is_decimal.

(** [re.findall] reports a pattern without groups by its whole match;
    such a pattern is wrapped in a group. *)

(** [(\d+)\s*transbordo] *)
Definition transbordo_pat1 : regex :=
  seqs [Group (plus digit); star ws; cs_lit "transbordo"].

(** [cambio\s+de\s+l[ií]nea] *)
Definition transbordo_pat2 : regex :=
  Group (seqs [cs_lit "cambio"; plus ws; cs_lit "de"; plus ws; cs_lit "l";
               Cls (fun c => (c =? 105) || (c =? 237))%N; cs_lit "nea"]).

(** [sin\s+transbordo] *)
Definition transbordo_pat3 : regex :=
  Group (seqs [cs_lit "sin"; plus ws; cs_lit "transbordo"]).

(** [directo] *)
Definition transbordo_pat4 : regex := Group (cs_lit "directo").

Definition transbordo_patterns : list regex :=
  [transbordo_pat1; transbordo_pat2; transbordo_pat3; transbordo_pat4].

(** [str.isdigit()]: non-empty, and every character has numeric type
    Digit or Decimal (in Latin-1: 0-9, ², ³ and ¹). *)
Definition py_isdigit (s : pystr) : bool :=
  match s with
  | [] => false
  | _ :: _ => forallb (fun c => is_decimal c || (c =? 178) || (c =? 179)
                                || (c =? 185))%N s
  end.

(** [int(s)] for a string of digits: every character must be a decimal
    digit. *)
Definition decimal_value (s : pystr) : N :=
  fold_left (fun acc c => acc * 10 + (c - 48))%N s 0%N.

Definition py_int (s : pystr) : result N :=
  match s with
  | _ :: _ =>
      if forallb is_decimal s then Ok (decimal_value s)
      else Raise (u "ValueError: invalid literal for int() with base 10")
  | [] => Raise (u "ValueError: invalid literal for int() with base 10")
  end.

(** [for pattern in transbordo_patterns: matches = re.findall(...); ...] *)
Fixpoint transbordos_loop (patterns : list regex) (response_lower : pystr)
         (num : N) : result N :=
  match patterns with
  | [] => Ok num
  | pattern :: rest =>
      match findall pattern response_lower with
      | [] => transbordos_loop rest response_lower num
      | m0 :: _ =>
          n <- (if py_in (u "sin transbordo") response_lower
                   || py_in (u "directo") response_lower
                then Ok 0%N
                else if py_isdigit m0 then py_int m0 else Ok 1%N) ;;
          transbordos_loop rest response_lower n
      end
  end.

Definition hallucination_indicators : list pystr :=
  map u ["no tengo información"; "no puedo confirmar"; "no estoy seguro";
         "puede que"; "probablemente"].

(** The keys of [expected] that [validate_route] reads:
    [expected.get("estacion_origen")] and
    [expected.get("campus_validos", [])]. *)
Record Expected := mkExpected {
  exp_estacion_origen : option pystr;
  exp_campus_validos : list pystr
}.

Record Metrics := mkMetrics {
  is_valid : bool;
  found_correct_campus : bool;
  found_correct_origin : bool;
  num_transbordos_mencionados : N;
  hallucinations_detected : list pystr
}.

(** [EvaluationMetrics.validate_route] *)
Definition validate_route (response : pystr) (expected : Expected)
  : result Metrics :=
  let response_lower := py_lower response in
  let found_origin :=
    if truthy (exp_estacion_origen expected)
    then py_in (py_lower (default_str (exp_estacion_origen expected)))
               response_lower
    else false in
  let found_campus :=
    existsb (fun campus => py_in (py_lower campus) response_lower)
            (exp_campus_validos expected) in
  num <- transbordos_loop transbordo_patterns response_lower 0%N ;;
  let hallucinations :=
    filter (fun indicator => py_in indicator response_lower)
           hallucination_indicators in
  Ok (mkMetrics (found_origin && found_campus) found_campus found_origin
                num hallucinations).

(* ------------------------------------------------------------------ *)
(** ** Evaluation harness: the loop of [BenchmarkEvaluator.run_benchmark] *)

Record Challenge := mkChallenge {
  ch_id : Z;
  ch_query : pystr;
  ch_difficulty : pystr;
  ch_expected : Expected
}.

Record BenchResult := mkBenchResult {
  br_challenge_id : Z;
  br_query : pystr;
  br_difficulty : pystr;
  br_expected : Expected;
  br_baseline_response : pystr;
  br_graphrag_response : pystr;
  br_baseline_metrics : Metrics;
  br_graphrag_metrics : Metrics;
  br_graphrag_hallucinations : list pystr;
  br_campus_found : nat;
  br_routes_calculated : nat
}.

(** [comparison["graphrag"].get("context", {})] *)
Definition context_or_empty (o : option Context) : Context :=
  match o with Some c => c | None => empty_context end.

(** The body of the [try] for one challenge. *)
Definition benchmark_challenge (doc_find : doc_capability)
           (graph_path : graph_capability) (api : generation_capability)
           (challenge : Challenge) : result BenchResult :=
  comparison <- compare_methods doc_find graph_path api (ch_query challenge) ;;
  baseline_metrics <- validate_route (resp_response (cmp_baseline comparison))
                                     (ch_expected challenge) ;;
  graphrag_metrics <- validate_route (resp_response (cmp_graphrag comparison))
                                     (ch_expected challenge) ;;
  let context := context_or_empty (resp_context (cmp_graphrag comparison)) in
  graphrag_hallucinations <-
    detect_hallucinations_graphrag (resp_response (cmp_graphrag comparison))
                                   context ;;
  Ok (mkBenchResult (ch_id challenge) (ch_query challenge)
        (ch_difficulty challenge) (ch_expected challenge)
        (resp_response (cmp_baseline comparison))
        (resp_response (cmp_graphrag comparison))
        baseline_metrics graphrag_metrics graphrag_hallucinations
        (List.length (ctx_campus context)) (List.length (ctx_rutas context))).

(** [results]: a challenge whose [try] raises is reported and skipped. *)
Fixpoint run_benchmark_results (doc_find : doc_capability)
         (graph_path : graph_capability) (api : generation_capability)
         (queries : list Challenge) : list BenchResult :=
  match queries with
  | [] => []
  | challenge :: rest =>
      match benchmark_challenge doc_find graph_path api challenge with
      | Ok result => result :: run_benchmark_results doc_find graph_path api rest
      | Raise _ => run_benchmark_results doc_find graph_path api rest
      end
  end.

(* ------------------------------------------------------------------ *)
(** ** [MockProvider.generate] of [llm_interface.py]

    The provider keeps a call counter; [generate] returns the new counter
    with the reply. *)

Definition mock_baseline_reply : pystr :=
  join nl (map u
    ["Para llegar desde Sol hasta un campus con Máster en Inteligencia Artificial,";
     "puedes tomar la Línea 6 hasta Ciudad Universitaria, donde la UCM ofrece este programa.";
     "El trayecto es directo y tarda aproximadamente 20 minutos."]).

Definition mock_graphrag_reply : pystr :=
  join nl (map u
    ["Basándome en los datos proporcionados:";
     "";
     "**Mejor opción: Ciudad Universitaria (UCM)**";
     "- Ruta: Sol → Cuatro Caminos (L1) → Transbordo → Ciudad Universitaria (L6)";
     "- Distancia: 8 estaciones";
     "- Transbordos: 1 (en Cuatro Caminos)";
     "- Tiempo estimado: 22 minutos";
     "- Estudios: Máster en Inteligencia Artificial (60 ECTS)";
     "";
     "**Alternativa: Campus de Moncloa (UPM)**";
     "- Ruta: Sol → Callao (L3) → Moncloa";
     "- Distancia: 6 estaciones";
     "- Transbordos: 0";
     "- Tiempo estimado: 15 minutos"]).

Definition mock_generate (call_count : N) (prompt : pystr) : N * pystr :=
  let call_count := (call_count + 1)%N in
  if py_in (u "baseline") (py_lower prompt)
     || py_in (u "sin contexto") (py_lower prompt)
  then (call_count, mock_baseline_reply)
  else if py_in (u "graphrag") (py_lower prompt)
          || py_in (u "contexto") (py_lower prompt)
  then (call_count, mock_graphrag_reply)
  else (call_count, u "[MOCK] Respuesta simulada para pruebas (llamada #" ++
                    str_N call_count ++ u ")").

(** The facts a route carries about the campus entry and nearby station it
    was computed for, and about the graph path it was read from. *)
Definition route_from (graph_path : graph_capability) (o : pystr)
           (cs : list Campus) (r : Ruta) : Prop :=
  exists c ec p,
    In c cs /\ In ec (c_estaciones_cercanas c)
    /\ r_campus r = c_nombre c /\ r_universidad r = c_universidad c
    /\ nombre_estacion ec = Some (r_estacion_destino r)
    /\ r_estacion_destino r <> []
    /\ r_rol_estacion r = rol ec /\ r_minutos_andando r = minutos_andando ec
    /\ graph_path o (r_estacion_destino r) = Ok (Some p)
    /\ r_ruta r = path_nodes p
    /\ (2 <= List.length (path_lineas p))%nat
    /\ r_num_estaciones r = Z.of_nat (List.length (path_lineas p))
    /\ r_num_cambios_linea r = sum_cambios (path_lineas p)
    /\ r_lineas_usadas r = dedup (path_lineas p).

Definition opt_eqb (x y : option Z) : bool :=
  match x, y with
  | Some a, Some b => Z.eqb a b
  | None, None => true
  | _, _ => false
  end.

(* ================================================================== *)
(** * Properties *)

Lemma key_le_spec : forall a b,
  key_le a b = true <->
  r_num_cambios_linea a < r_num_cambios_linea b
  \/ (r_num_cambios_linea a = r_num_cambios_linea b
      /\ r_num_estaciones a <= r_num_estaciones b).
Proof.
  intros a b; unfold key_le.
  rewrite orb_true_iff, andb_true_iff, Z.ltb_lt, Z.eqb_eq, Z.leb_le; tauto.
Qed.

Lemma key_le_total : forall a b, key_le a b = false -> key_le b a = true.
Proof.
  intros a b H.
  apply key_le_spec.
  destruct (key_le a b) eqn:E; [discriminate|].
  assert (~ (r_num_cambios_linea a < r_num_cambios_linea b
             \/ (r_num_cambios_linea a = r_num_cambios_linea b
                 /\ r_num_estaciones a <= r_num_estaciones b))) as N.
  { intros C; apply key_le_spec in C; congruence. }
  lia.
Qed.

Lemma insert_route_perm : forall x l, Permutation (insert_route x l) (x :: l).
Proof.
  intros x l; induction l as [|y t IH]; simpl; [constructor; constructor|].
  destruct (key_le x y); [reflexivity|].
  transitivity (y :: x :: t); [constructor; exact IH | constructor].
Qed.

Lemma sort_routes_perm : forall l, Permutation (sort_routes l) l.
Proof.
  induction l as [|x t IH]; simpl; [constructor|].
  rewrite insert_route_perm; constructor; exact IH.
Qed.

Lemma insert_route_head : forall x y t,
  exists z t', insert_route x (y :: t) = z :: t' /\ (z = x \/ z = y).
Proof.
  intros x y t; simpl; destruct (key_le x y); eauto.
Qed.

Lemma insert_route_sorted : forall x l,
  LocallySorted (fun a b => key_le a b = true) l ->
  LocallySorted (fun a b => key_le a b = true) (insert_route x l).
Proof.
  intros x l H; induction H as [|y|y z t Hs IH Hyz]; simpl.
  - constructor.
  - destruct (key_le x y) eqn:E; constructor; auto using key_le_total; constructor.
  - destruct (key_le x y) eqn:E.
    + constructor; [constructor; assumption | exact E].
    + simpl in IH. destruct (key_le x z) eqn:E2.
      * constructor; [exact IH | apply key_le_total; exact E].
      * constructor; [exact IH | exact Hyz].
Qed.

Lemma sort_routes_sorted : forall l,
  LocallySorted (fun a b => key_le a b = true) (sort_routes l).
Proof.
  induction l as [|x t IH]; simpl; [constructor|].
  apply insert_route_sorted; exact IH.
Qed.

Lemma locally_sorted_ranked : forall l,
  LocallySorted (fun a b => key_le a b = true) l -> ranked l.
Proof.
  intros l H; induction H as [|y|y z t Hs IH Hyz]; intros i a b Ha Hb.
  - destruct i; discriminate.
  - destruct i as [|[|i]]; discriminate.
  - destruct i as [|i].
    + simpl in Ha, Hb; inversion Ha; inversion Hb; subst.
      apply key_le_spec; exact Hyz.
    + exact (IH i a b Ha Hb).
Qed.

Lemma same_key_sym : forall a b, same_key a b = same_key b a.
Proof.
  intros a b; unfold same_key; rewrite (Z.eqb_sym (r_num_cambios_linea a)),
    (Z.eqb_sym (r_num_estaciones a)); reflexivity.
Qed.

(** An inserted route goes before the routes of equal key and after the
    routes of smaller key. *)
Lemma filter_insert_route : forall k x l,
  filter (same_key k) (insert_route x l) = filter (same_key k) (x :: l).
Proof.
  intros k x l; induction l as [|y t IH]; simpl; [reflexivity|].
  destruct (key_le x y) eqn:E; [reflexivity|].
  simpl. rewrite IH; simpl.
  destruct (same_key k x) eqn:Ex, (same_key k y) eqn:Ey; try reflexivity.
  exfalso. unfold same_key in Ex, Ey.
  apply andb_true_iff in Ex, Ey; rewrite !Z.eqb_eq in Ex, Ey.
  assert (key_le x y = true) as C by (apply key_le_spec; lia).
  congruence.
Qed.

Lemma sort_routes_stable : forall k l,
  filter (same_key k) (sort_routes l) = filter (same_key k) l.
Proof.
  intros k l; induction l as [|x t IH]; simpl; [reflexivity|].
  rewrite filter_insert_route; simpl; rewrite IH; reflexivity.
Qed.

Lemma fold_result_inv {T U : Type} (P : T -> Prop) (f : T -> U -> result T) :
  (forall a x a', P a -> f a x = Ok a' -> P a') ->
  forall xs acc res, P acc -> fold_result f acc xs = Ok res -> P res.
Proof.
  intros Hf xs; induction xs as [|x t IH]; simpl; intros acc res Hacc H.
  - inversion H; subst; exact Hacc.
  - destruct (f acc x) as [a|e] eqn:E; simpl in H; [|discriminate].
    exact (IH a res (Hf _ _ _ Hacc E) H).
Qed.

Lemma calculate_routes_sorted_found : forall graph_path o cs rs,
  calculate_routes_neo4j graph_path o cs = Ok rs ->
  exists found, discovered_routes graph_path o cs = Ok found
                /\ rs = sort_routes found.
Proof.
  intros graph_path o cs rs H; unfold calculate_routes_neo4j in H.
  unfold discovered_routes.
  destruct (fold_result (campus_step graph_path o) [] cs) as [found|e];
    simpl in H; [|discriminate].
  inversion H; subst; eauto.
Qed.

Lemma retrieve_context_rutas : forall doc_find graph_path e ctx,
  retrieve_context doc_find graph_path e = Ok ctx ->
  ctx_rutas ctx = []
  \/ exists o cs found, discovered_routes graph_path o cs = Ok found
                        /\ ctx_rutas ctx = sort_routes found.
Proof.
  intros doc_find graph_path e ctx H; unfold retrieve_context in H; cbv zeta in H.
  destruct e as [origen est]; simpl in H.
  set (mc := match est with
             | Some ((_ :: _) as q) => search_campus_mongodb doc_find q
             | _ => Ok [] end) in H.
  destruct mc as [campus|err]; simpl in H; [|discriminate].
  destruct origen as [[|c o]|];
    [inversion H; subst; auto | | inversion H; subst; auto].
  destruct campus as [|c0 cs]; [inversion H; subst; auto|].
  destruct (calculate_routes_neo4j graph_path (c :: o) (c0 :: cs)) as [rs|err] eqn:Ec;
    simpl in H; [|discriminate].
  inversion H; subst; simpl; right.
  destruct (calculate_routes_sorted_found _ _ _ _ Ec) as [found [Hf Hs]].
  exists (c :: o), (c0 :: cs), found; auto.
Qed.

(** ** Transfers and stations of a route *)

Lemma cambio_bound : forall a b, 0 <= cambio a b <= 1.
Proof.
  intros [x|] [y|]; simpl; try lia. destruct (x =? y); lia.
Qed.

Lemma sum_cambios_bound : forall ls,
  0 <= sum_cambios ls <= Z.of_nat (List.length ls).
Proof.
  induction ls as [|a t IH]; simpl; [lia|].
  destruct t as [|b t']; [lia|].
  pose proof (cambio_bound a b). simpl List.length in *. lia.
Qed.

Lemma cypher_row_bound : forall p row, cypher_row p = Some row ->
  0 <= row_num_cambios_linea row <= row_num_estaciones row.
Proof.
  intros p row H; unfold cypher_row in H.
  destruct (List.length (path_lineas p) <? 2)%nat; [discriminate|].
  inversion H; subst; simpl. apply sum_cambios_bound.
Qed.

Lemma route_step_counts : forall graph_path o campus acc ec acc',
  Forall route_counts_ok acc ->
  route_step graph_path o campus acc ec = Ok acc' ->
  Forall route_counts_ok acc'.
Proof.
  intros graph_path o campus acc ec acc' Hacc H; unfold route_step in H.
  destruct (nombre_estacion ec) as [[|x y]|];
    try (inversion H; subst; exact Hacc).
  destruct (run_single graph_path o (x :: y)) as [[row|]|e] eqn:E;
    simpl in H; inversion H; subst; try exact Hacc.
  apply Forall_app; split; [exact Hacc|].
  constructor; [|constructor].
  unfold run_single in E.
  destruct (graph_path o (x :: y)) as [[p|]|e]; simpl in E; inversion E.
  unfold route_counts_ok, ruta_of_row; simpl.
  eapply cypher_row_bound; eassumption.
Qed.

Lemma discovered_routes_counts : forall graph_path o cs found,
  discovered_routes graph_path o cs = Ok found ->
  Forall route_counts_ok found.
Proof.
  intros graph_path o cs found H.
  refine (fold_result_inv (Forall route_counts_ok) _ _ cs [] found (Forall_nil _) H).
  intros acc campus acc' Hacc Hc; unfold campus_step in Hc.
  refine (fold_result_inv (Forall route_counts_ok) _ _ _ acc acc' Hacc Hc).
  intros; eapply route_step_counts; eassumption.
Qed.

(** C2: every route produced by the route calculation has
    [0 <= transfer_count <= station_count], whatever paths and per-edge
    line identifiers the graph store returns. *)
Theorem route_transfers_le_stations : forall graph_path o cs rs r,
  calculate_routes_neo4j graph_path o cs = Ok rs -> In r rs ->
  0 <= r_num_cambios_linea r <= r_num_estaciones r.
Proof.
  intros graph_path o cs rs r H Hin.
  destruct (calculate_routes_sorted_found _ _ _ _ H) as [found [Hf Hs]]; subst rs.
  pose proof (discovered_routes_counts _ _ _ _ Hf) as Hall.
  rewrite Forall_forall in Hall.
  apply Hall. eapply Permutation_in; [apply sort_routes_perm | exact Hin].
Qed.

(** C1: the routes of every retrieved context are ranked by
    (transfer count, station count) on every adjacent pair, and they are
    the routes in discovery order, stably sorted: routes of equal key keep
    their discovery order. *)
Theorem retrieved_routes_ranked_stable : forall doc_find graph_path e ctx,
  retrieve_context doc_find graph_path e = Ok ctx ->
  ranked (ctx_rutas ctx)
  /\ exists found,
       (found = [] \/ exists o cs, discovered_routes graph_path o cs = Ok found)
       /\ Permutation (ctx_rutas ctx) found
       /\ forall k, filter (same_key k) (ctx_rutas ctx) = filter (same_key k) found.
Proof.
  intros doc_find graph_path e ctx H.
  destruct (retrieve_context_rutas _ _ _ _ H) as [E | [o [cs [found [Hf E]]]]];
    rewrite E.
  - split; [intros i a b Ha; destruct i; discriminate|].
    exists []; split; [left; reflexivity | split; [constructor | reflexivity]].
  - split; [apply locally_sorted_ranked, sort_routes_sorted|].
    exists found; split; [right; eauto|].
    split; [apply sort_routes_perm | intros k; apply sort_routes_stable].
Qed.

Lemma route_transfers_le_stations_witness :
  calculate_routes_neo4j demo_graph (u "Sol") [campus_ucm; campus_sur] = Ok demo_routes
  /\ demo_routes <> []
  /\ Forall (fun r => 0 <= r_num_cambios_linea r <= r_num_estaciones r) demo_routes.
Proof.
  assert (H : calculate_routes_neo4j demo_graph (u "Sol") [campus_ucm; campus_sur]
              = Ok demo_routes) by (vm_compute; reflexivity).
  split; [exact H|]. split; [vm_compute; discriminate|].
  apply Forall_forall; intros r Hr.
  exact (route_transfers_le_stations demo_graph (u "Sol") [campus_ucm; campus_sur]
           demo_routes r H Hr).
Defined.

Lemma retrieved_routes_ranked_stable_witness :
  retrieve_context demo_docs demo_graph (extract_entities demo_query) = Ok demo_context
  /\ List.length (ctx_rutas demo_context) = 2%nat
  /\ ranked (ctx_rutas demo_context)
  /\ exists found,
       (found = [] \/ exists o cs, discovered_routes demo_graph o cs = Ok found)
       /\ Permutation (ctx_rutas demo_context) found
       /\ forall k, filter (same_key k) (ctx_rutas demo_context) = filter (same_key k) found.
Proof.
  assert (H : retrieve_context demo_docs demo_graph (extract_entities demo_query)
              = Ok demo_context) by (vm_compute; reflexivity).
  split; [exact H|]. split; [vm_compute; reflexivity|].
  exact (retrieved_routes_ranked_stable demo_docs demo_graph
           (extract_entities demo_query) demo_context H).
Defined.

(** ** Graceful degradation *)

Lemma fold_result_ok {T U : Type} (f : T -> U -> result T) :
  (forall a x, exists a', f a x = Ok a') ->
  forall xs acc, exists res, fold_result f acc xs = Ok res.
Proof.
  intros Hf xs; induction xs as [|x t IH]; intros acc; simpl; [eauto|].
  destruct (Hf acc x) as [a' E]; rewrite E; simpl; apply IH.
Qed.

Lemma fold_result_ext {T U : Type} (f f' : T -> U -> result T) :
  (forall a x, f a x = f' a x) ->
  forall xs acc, fold_result f acc xs = fold_result f' acc xs.
Proof.
  intros Hf xs; induction xs as [|x t IH]; intros acc; simpl; [reflexivity|].
  rewrite Hf; destruct (f' acc x); simpl; [apply IH | reflexivity].
Qed.

Lemma search_campus_mongodb_ok : forall doc_find q,
  exists cs, search_campus_mongodb doc_find q = Ok cs.
Proof.
  intros doc_find q; unfold search_campus_mongodb.
  destruct (doc_find q); simpl; eauto.
Qed.

Lemma route_step_ok : forall graph_path o campus acc ec,
  exists acc', route_step graph_path o campus acc ec = Ok acc'.
Proof.
  intros graph_path o campus acc ec; unfold route_step.
  destruct (nombre_estacion ec) as [[|x y]|]; eauto.
  destruct (run_single graph_path o (x :: y)) as [[row|]|e]; simpl; eauto.
Qed.

Lemma calculate_routes_neo4j_ok : forall graph_path o cs,
  exists rs, calculate_routes_neo4j graph_path o cs = Ok rs.
Proof.
  intros graph_path o cs; unfold calculate_routes_neo4j.
  destruct (fold_result_ok (campus_step graph_path o)
              (fun acc c => fold_result_ok _ (route_step_ok graph_path o c) _ acc)
              cs []) as [rs E].
  rewrite E; simpl; eauto.
Qed.

Lemma retrieve_context_ok : forall doc_find graph_path e,
  exists ctx, retrieve_context doc_find graph_path e = Ok ctx.
Proof.
  intros doc_find graph_path [origen est]; unfold retrieve_context; simpl.
  destruct (match est with
            | Some ((_ :: _) as q) => search_campus_mongodb doc_find q
            | _ => Ok [] end) as [campus|err] eqn:Ec.
  2:{ destruct est as [[|x y]|]; try discriminate.
      destruct (search_campus_mongodb_ok doc_find (x :: y)) as [cs E]; congruence. }
  simpl.
  destruct origen as [[|x y]|]; simpl; eauto.
  destruct campus as [|c cs]; simpl; eauto.
  destruct (calculate_routes_neo4j_ok graph_path (x :: y) (c :: cs)) as [rs E].
  rewrite E; simpl; eauto.
Qed.

Lemma provider_generate_ok : forall api p, exists t, provider_generate api p = Ok t.
Proof.
  intros api p; unfold provider_generate; destruct (api p); simpl; eauto.
Qed.

Lemma route_step_skip : forall g1 g2 o campus acc ec,
  raises_where_no_path g1 g2 ->
  route_step g1 o campus acc ec = route_step g2 o campus acc ec.
Proof.
  intros g1 g2 o campus acc ec Hg; unfold route_step.
  destruct (nombre_estacion ec) as [[|x y]|]; try reflexivity.
  unfold run_single.
  destruct (Hg o (x :: y)) as [E | [e [E1 E2]]].
  - rewrite E; reflexivity.
  - rewrite E1, E2; reflexivity.
Qed.

(** C3: [baseline], [graphrag] and [compare] return a response for every
    query and every behaviour of the document store, the graph store and
    the generation API (raising included); a document-store error leaves
    the campus list (and so the routes) empty, and a graph-store error on
    a (campus, station) pair skips that pair exactly as "no path" does,
    the other pairs being processed. *)
Theorem pipeline_degrades_gracefully : forall doc_find graph_path api query,
  (exists r, baseline_llm api query = Ok r)
  /\ (exists r, graphrag_recommendation doc_find graph_path api query = Ok r)
  /\ (exists c, compare_methods doc_find graph_path api query = Ok c)
  /\ (forall err e, exists ctx,
        retrieve_context (fun _ => Raise err) graph_path e = Ok ctx
        /\ ctx_campus ctx = [] /\ ctx_rutas ctx = [])
  /\ (forall graph_path' o cs, raises_where_no_path graph_path graph_path' ->
        calculate_routes_neo4j graph_path o cs
        = calculate_routes_neo4j graph_path' o cs).
Proof.
  intros doc_find graph_path api query.
  assert (Hb : exists r, baseline_llm api query = Ok r).
  { unfold baseline_llm.
    destruct (provider_generate_ok api (baseline_prompt query)) as [t E].
    rewrite E; simpl; eauto. }
  assert (Hg : exists r, graphrag_recommendation doc_find graph_path api query = Ok r).
  { unfold graphrag_recommendation.
    destruct (retrieve_context_ok doc_find graph_path (extract_entities query)) as [ctx E].
    rewrite E; simpl.
    destruct (provider_generate_ok api
                (build_augmented_prompt query (extract_entities query) ctx)) as [t E2].
    rewrite E2; simpl; eauto. }
  split; [exact Hb|]. split; [exact Hg|]. split.
  { unfold compare_methods. destruct Hb as [b Eb]; destruct Hg as [g Eg].
    rewrite Eb; simpl; rewrite Eg; simpl; eauto. }
  split.
  - intros err [origen est]; unfold retrieve_context; simpl.
    destruct est as [[|x y]|]; simpl;
      destruct origen as [[|a b]|]; simpl; eauto.
  - intros graph_path' o cs Hskip; unfold calculate_routes_neo4j.
    rewrite (fold_result_ext (campus_step graph_path o) (campus_step graph_path' o)).
    + reflexivity.
    + intros acc c; unfold campus_step.
      apply fold_result_ext; intros; apply route_step_skip; exact Hskip.
Qed.

(** ** Campus matches *)

Lemma py_in_nil : forall c t, py_in (c :: t) [] = false.
Proof. reflexivity. Qed.


(** ** No entities, no context *)

(** C5: when extraction finds neither an origin station nor a study name
    (both fields [None] or empty), [graphrag] returns a context with no
    campus and no route, and no source. *)
Theorem graphrag_without_entities_is_empty : forall doc_find graph_path api query,
  truthy (estacion_origen (extract_entities query)) = false ->
  truthy (estudio (extract_entities query)) = false ->
  exists r ctx, graphrag_recommendation doc_find graph_path api query = Ok r
    /\ resp_context r = Some ctx
    /\ ctx_campus ctx = [] /\ ctx_rutas ctx = [] /\ resp_sources r = [].
Proof.
  intros doc_find graph_path api query Ho Hs.
  unfold graphrag_recommendation, retrieve_context.
  destruct (extract_entities query) as [origen est]; simpl in Ho, Hs |- *.
  assert (Hc : match est with
               | Some ((_ :: _) as q) => search_campus_mongodb doc_find q
               | _ => Ok [] end = Ok []).
  { destruct est as [[|x y]|]; [reflexivity | discriminate | reflexivity]. }
  rewrite Hc; simpl.
  destruct origen as [[|a b]|]; simpl;
    match goal with
    | |- context [provider_generate api ?p] =>
        destruct (provider_generate_ok api p) as [t E]; rewrite E; simpl
    end;
    eexists; eexists; repeat split; reflexivity.
Qed.


Lemma graphrag_without_entities_is_empty_witness :
  truthy (estacion_origen (extract_entities (u "¿Qué campus me recomiendas?"))) = false
  /\ truthy (estudio (extract_entities (u "¿Qué campus me recomiendas?"))) = false
  /\ exists r ctx,
       graphrag_recommendation demo_docs demo_graph demo_api
         (u "¿Qué campus me recomiendas?") = Ok r
       /\ resp_context r = Some ctx
       /\ ctx_campus ctx = [] /\ ctx_rutas ctx = [] /\ resp_sources r = [].
Proof.
  assert (H1 : truthy (estacion_origen (extract_entities (u "¿Qué campus me recomiendas?")))
               = false) by (vm_compute; reflexivity).
  assert (H2 : truthy (estudio (extract_entities (u "¿Qué campus me recomiendas?")))
               = false) by (vm_compute; reflexivity).
  split; [exact H1|]. split; [exact H2|].
  exact (graphrag_without_entities_is_empty demo_docs demo_graph demo_api
           (u "¿Qué campus me recomiendas?") H1 H2).
Defined.

(** ** The augmented prompt *)

Lemma is_prefix_app : forall n b, is_prefix n (n ++ b) = true.
Proof.
  induction n as [|a t IH]; intros b; simpl; [reflexivity|].
  rewrite N.eqb_refl, IH; reflexivity.
Qed.

Lemma py_in_app_r : forall n a b, py_in n b = true -> py_in n (a ++ b) = true.
Proof.
  intros n a b H; induction a as [|x t IH]; simpl; [exact H|].
  rewrite IH, orb_true_r; reflexivity.
Qed.

Lemma py_in_app_l : forall n a b, py_in n a = true -> py_in n (a ++ b) = true.
Proof.
  intros n a b H; induction a as [|x t IH].
  - destruct n as [|c m]; [destruct b; reflexivity | discriminate].
  - simpl in H |- *. apply orb_true_iff in H; destruct H as [H|H].
    + assert (Hp : forall p l, is_prefix p l = true -> is_prefix p (l ++ b) = true).
      { induction p as [|c p IHp]; intros [|d l] Hl; simpl in *;
          try reflexivity; try discriminate.
        apply andb_true_iff in Hl; destruct Hl as [E Hl]; rewrite E; simpl; auto. }
      apply orb_true_iff; left; exact (Hp _ _ H).
    + rewrite IH by exact H; apply orb_true_r.
Qed.

(** Finds the piece of a concatenation that contains the needle. *)
Ltac py_in_search :=
  match goal with
  | |- py_in ?n (?a ++ ?b) = true =>
      first [ apply py_in_app_l; py_in_search | apply py_in_app_r; py_in_search ]
  | |- py_in ?n ?x = true => vm_compute; reflexivity
  end.

(** C7 (as amended): an empty campus list makes the prompt state
    "No se encontraron campus que ofrezcan este estudio." (capital N: the
    lower-case phrase occurs in the lowered prompt), an empty route list
    makes it state "No se pudieron calcular rutas.". *)
Theorem prompt_states_missing_data : forall query e ctx,
  (ctx_campus ctx = [] ->
     py_in (u "No se encontraron campus que ofrezcan este estudio.")
           (build_augmented_prompt query e ctx) = true
     /\ py_in (u "no se encontraron campus")
              (py_lower (build_augmented_prompt query e ctx)) = true)
  /\ (ctx_rutas ctx = [] ->
        py_in (u "No se pudieron calcular rutas.")
              (build_augmented_prompt query e ctx) = true).
Proof.
  intros query e ctx; split.
  - intros H; unfold build_augmented_prompt; rewrite H; split.
    + py_in_search.
    + unfold py_lower; rewrite !map_app. py_in_search.
  - intros H; unfold build_augmented_prompt; rewrite H. py_in_search.
Qed.

(** C7: the prompt of a context with no campus does not contain the
    lower-case text "no se encontraron campus": its branch line starts
    with a capital N. *)
Lemma prompt_no_campus_branch_is_capitalised :
  ctx_campus empty_context = []
  /\ py_in (u "no se encontraron campus")
       (build_augmented_prompt (u "hola") (extract_entities (u "hola")) empty_context)
     = false.
Proof. split; [reflexivity | vm_compute; reflexivity]. Qed.

(** C8: the prompt is the same when only the first three routes are kept
    (a route ranked fourth or later never reaches it), while the route
    calculation returns every route it found, sorted, none dropped. *)
Theorem prompt_top3_retriever_untruncated :
  (forall query e ctx,
     build_augmented_prompt query e ctx
     = build_augmented_prompt query e
         (mkContext (ctx_campus ctx) (firstn 3 (ctx_rutas ctx))
                    (ctx_estacion_origen ctx) (ctx_estudio_buscado ctx)))
  /\ (forall graph_path o cs found,
        discovered_routes graph_path o cs = Ok found ->
        calculate_routes_neo4j graph_path o cs = Ok (sort_routes found)
        /\ Permutation (sort_routes found) found
        /\ List.length (sort_routes found) = List.length found).
Proof.
  split.
  - intros query e ctx; unfold build_augmented_prompt; simpl.
    destruct (ctx_rutas ctx) as [|r1 [|r2 [|r3 rest]]]; reflexivity.
  - intros graph_path o cs found H.
    unfold calculate_routes_neo4j; unfold discovered_routes in H; rewrite H; simpl.
    split; [reflexivity|]. split; [apply sort_routes_perm|].
    apply Permutation_length, sort_routes_perm.
Qed.

(** ** The GraphRAG hallucination check *)

Lemma campus_reales_ok : forall cs,
  (forall c, In c cs -> c_nombre c <> None) ->
  exists reales, campus_reales cs = Ok reales
    /\ forall real, In real reales <->
         exists c n, In c cs /\ c_nombre c = Some n /\ real = py_lower n.
Proof.
  induction cs as [|c t IH]; intros Hn; simpl.
  - exists []; split; [reflexivity|]. intros real; split; [intros []|].
    intros (c & n & [] & _).
  - destruct (c_nombre c) as [n|] eqn:Ec.
    2:{ exfalso; apply (Hn c); [left; reflexivity | exact Ec]. }
    destruct IH as [rs [E Hrs]]; [intros c' Hc'; apply Hn; right; exact Hc'|].
    rewrite E; simpl. exists (py_lower n :: rs); split; [reflexivity|].
    intros real; simpl; split.
    + intros [<- | Hr]; [exists c, n; auto|].
      apply Hrs in Hr; destruct Hr as (c' & n' & H1 & H2 & H3); exists c', n'; auto.
    + intros (c' & n' & [<- | H1] & H2 & H3).
      * left; congruence.
      * right; apply Hrs; exists c', n'; auto.
Qed.





(** ** Entity extraction *)

Lemma star_loop_sound {A : Type}
      (m : pystr -> group -> (pystr -> group -> option A) -> option A) (gf : bool)
      (Hm : forall s g k x, m s g k = Some x ->
              exists s' g', (List.length s' <= List.length s)%nat /\ k s' g' = Some x
                            /\ (gf = true -> g' = g))
      (greedy : bool) (k : pystr -> group -> option A) :
  forall n s g x, star_loop m greedy k n s g = Some x ->
    exists s' g', (List.length s' <= List.length s)%nat /\ k s' g' = Some x
                  /\ (gf = true -> g' = g).
Proof.
  induction n as [|n IH]; intros s g x H; simpl in H.
  - destruct greedy; [|destruct (k s g) eqn:Ek; [injection H as <-; rename Ek into H|
      discriminate]];
      exists s, g; repeat split; auto.
  - set (once := m s g _) in H.
    assert (Ho : once = Some x ->
                 exists s' g', (List.length s' <= List.length s)%nat
                               /\ k s' g' = Some x /\ (gf = true -> g' = g)).
    { intros E. apply Hm in E; destruct E as (s1 & g1 & Hl1 & Hk1 & Hg1).
      destruct (List.length s1 <? List.length s)%nat; [|discriminate].
      apply IH in Hk1; destruct Hk1 as (s2 & g2 & Hl2 & Hk2 & Hg2).
      exists s2, g2; repeat split; [lia | exact Hk2 |].
      intros Hgf; rewrite (Hg2 Hgf); apply Hg1; exact Hgf. }
    destruct greedy.
    + destruct once as [y|] eqn:Eo.
      * injection H as <-; apply Ho; reflexivity.
      * exists s, g; repeat split; auto.
    + destruct (k s g) as [y|] eqn:Ek.
      * injection H as <-; exists s, g; repeat split; auto.
      * apply Ho; exact H.
Qed.

(** Whatever the matcher returns comes from its continuation, called on
    a suffix of the input; a pattern without a group leaves group 1 as
    it found it. *)
Lemma mtch_sound {A : Type} (r : regex) : forall s g (k : pystr -> group -> option A) x,
  mtch r s g k = Some x ->
  exists s' g', (List.length s' <= List.length s)%nat /\ k s' g' = Some x
                /\ (group_free r = true -> g' = g).
Proof.
  induction r as [p | r1 IH1 r2 IH2 | r1 IH1 r2 IH2 | greedy r1 IH | | | r1 IH];
    intros s g k x H; simpl in H.
  - destruct s as [|c t]; [discriminate|].
    destruct (p c); [|discriminate].
    exists t, g; simpl; repeat split; auto.
  - apply IH1 in H; destruct H as (s1 & g1 & Hl1 & Hk1 & Hg1).
    apply IH2 in Hk1; destruct Hk1 as (s2 & g2 & Hl2 & Hk2 & Hg2).
    exists s2, g2; repeat split; [lia | exact Hk2 |].
    simpl; intros Hgf; apply andb_true_iff in Hgf; destruct Hgf as [G1 G2].
    rewrite (Hg2 G2); apply Hg1; exact G1.
  - destruct (mtch r1 s g k) as [y|] eqn:E1.
    + injection H as <-. apply IH1 in E1; destruct E1 as (s1 & g1 & Hl & Hk & Hg).
      exists s1, g1; repeat split; auto.
      simpl; intros Hgf; apply andb_true_iff in Hgf; apply Hg; apply Hgf.
    + apply IH2 in H; destruct H as (s1 & g1 & Hl & Hk & Hg).
      exists s1, g1; repeat split; auto.
      simpl; intros Hgf; apply andb_true_iff in Hgf; apply Hg; apply Hgf.
  - exact (star_loop_sound (mtch r1) (group_free r1) (IH) greedy k _ s g x H).
  - exists s, g; repeat split; auto.
  - destruct s as [|c [|c' t]].
    + exists [], g; repeat split; auto.
    + destruct (c =? 10)%N; [|discriminate]. exists [c], g; repeat split; auto.
    + discriminate.
  - apply IH in H; destruct H as (s1 & g1 & Hl & Hk & _).
    exists s1, (Some (firstn (List.length s - List.length s1) s)).
    split; [exact Hl | split; [exact Hk | discriminate]].
Qed.


















(* ------------------------------------------------------------------ *)
(** ** More of the program *)

(** *** The matcher consumes a prefix of its input *)

Lemma mtch_seq {A : Type} (r1 r2 : regex) s g (k : pystr -> group -> option A) :
  mtch (Seq r1 r2) s g k = mtch r1 s g (fun s' g' => mtch r2 s' g' k).
Proof. reflexivity. Qed.

Lemma mtch_group {A : Type} (r : regex) s g (k : pystr -> group -> option A) :
  mtch (Group r) s g k =
  mtch r s g (fun s' g' => k s' (Some (firstn (List.length s - List.length s') s))).
Proof. reflexivity. Qed.

Lemma star_loop_suffix {A : Type}
      (m : pystr -> group -> (pystr -> group -> option A) -> option A)
      (Hm : forall s g k x, m s g k = Some x ->
              exists pre s' g', s = pre ++ s' /\ k s' g' = Some x)
      (greedy : bool) (k : pystr -> group -> option A) :
  forall n s g x, star_loop m greedy k n s g = Some x ->
    exists pre s' g', s = pre ++ s' /\ k s' g' = Some x.
Proof.
  induction n as [|n IH]; intros s g x H; simpl in H.
  - destruct greedy; [|destruct (k s g) eqn:Ek; [injection H as <-; rename Ek into H|
      discriminate]];
      exists [], s, g; split; auto.
  - set (once := m s g _) in H.
    assert (Ho : once = Some x -> exists pre s' g', s = pre ++ s' /\ k s' g' = Some x).
    { intros E. apply Hm in E; destruct E as (pre1 & s1 & g1 & -> & Hk1).
      destruct (List.length s1 <? List.length (pre1 ++ s1))%nat; [|discriminate].
      apply IH in Hk1; destruct Hk1 as (pre2 & s2 & g2 & -> & Hk2).
      exists (pre1 ++ pre2), s2, g2; split; [apply app_assoc | exact Hk2]. }
    destruct greedy.
    + destruct once as [y|] eqn:Eo.
      * injection H as <-; apply Ho; reflexivity.
      * exists [], s, g; split; auto.
    + destruct (k s g) as [y|] eqn:Ek.
      * injection H as <-; exists [], s, g; split; auto.
      * apply Ho; exact H.
Qed.

Lemma mtch_suffix {A : Type} (r : regex) : forall s g (k : pystr -> group -> option A) x,
  mtch r s g k = Some x -> exists pre s' g', s = pre ++ s' /\ k s' g' = Some x.
Proof.
  induction r as [p | r1 IH1 r2 IH2 | r1 IH1 r2 IH2 | greedy r1 IH | | | r1 IH];
    intros s g k x H; simpl in H.
  - destruct s as [|c t]; [discriminate|].
    destruct (p c); [|discriminate]. exists [c], t, g; split; auto.
  - apply IH1 in H; destruct H as (pre1 & s1 & g1 & -> & Hk1).
    apply IH2 in Hk1; destruct Hk1 as (pre2 & s2 & g2 & -> & Hk2).
    exists (pre1 ++ pre2), s2, g2; split; [apply app_assoc | exact Hk2].
  - destruct (mtch r1 s g k) as [y|] eqn:E1.
    + injection H as <-. exact (IH1 _ _ _ _ E1).
    + exact (IH2 _ _ _ _ H).
  - exact (star_loop_suffix (mtch r1) IH greedy k _ s g x H).
  - exists [], s, g; split; auto.
  - destruct s as [|c [|c' t]].
    + exists [], [], g; split; auto.
    + destruct (c =? 10)%N; [|discriminate]. exists [], [c], g; split; auto.
    + discriminate.
  - apply IH in H; destruct H as (pre & s1 & g1 & -> & Hk).
    eexists pre, s1, _; split; [reflexivity | exact Hk].
Qed.

(** A case-sensitive literal matches exactly its own text. *)
Lemma lit_cs_spec {A : Type} (l : pystr) : forall s g (k : pystr -> group -> option A) x,
  l <> [] -> mtch (lit_cs l) s g k = Some x -> exists s', s = l ++ s' /\ k s' g = Some x.
Proof.
  induction l as [|a t IH]; intros s g k x Hl H; [contradiction Hl; reflexivity|].
  destruct t as [|b t'].
  - simpl in H. destruct s as [|c s']; [discriminate|].
    destruct (c =? a)%N eqn:E; [|discriminate]. apply N.eqb_eq in E; subst c.
    exists s'; split; [reflexivity | exact H].
  - change (mtch (Seq (Cls (fun c => (c =? a)%N)) (lit_cs (b :: t'))) s g k = Some x) in H.
    simpl in H. destruct s as [|c s']; [discriminate|].
    destruct (c =? a)%N eqn:E; [|discriminate]. apply N.eqb_eq in E; subst c.
    apply IH in H; [|discriminate]. destruct H as (s'' & -> & Hk).
    exists s''; split; [reflexivity | exact Hk].
Qed.

(** Every item of [re.findall] is group 1 of a match at some position. *)
Lemma findall_from_in (r : regex) : forall fuel s d,
  In d (findall_from fuel r s) ->
  exists pre s0 s1 g, s = pre ++ s0
    /\ mtch r s0 None (fun s' g => Some (s', g)) = Some (s1, g) /\ d = group1 g.
Proof.
  induction fuel as [|f IH]; intros s d H; simpl in H; [destruct H|].
  destruct (mtch r s None (fun s' g => Some (s', g))) as [[s' g]|] eqn:E.
  - destruct H as [H | H].
    + exists [], s, s', g; split; [reflexivity | split; [exact E | symmetry; exact H]].
    + destruct (List.length s' <? List.length s)%nat.
      * apply IH in H; destruct H as (pre & s0 & s1 & g1 & Hs & Hm & Hd).
        destruct (mtch_suffix r s None _ _ E) as (pre0 & s2 & g2 & -> & Hk).
        injection Hk as -> _. subst s'.
        exists (pre0 ++ pre), s0, s1, g1; split; [apply app_assoc | auto].
      * destruct s as [|c t]; [destruct H|].
        apply IH in H; destruct H as (pre & s0 & s1 & g1 & -> & Hm & Hd).
        exists (c :: pre), s0, s1, g1; split; [reflexivity | auto].
  - destruct s as [|c t]; [destruct H|].
    apply IH in H; destruct H as (pre & s0 & s1 & g1 & -> & Hm & Hd).
    exists (c :: pre), s0, s1, g1; split; [reflexivity | auto].
Qed.

Lemma star_cls {A : Type} (P : N -> bool) (greedy : bool)
      (k : pystr -> group -> option A) :
  forall n s g x, star_loop (mtch (Cls P)) greedy k n s g = Some x ->
    exists pre s', forallb P pre = true /\ s = pre ++ s' /\ k s' g = Some x.
Proof.
  induction n as [|n IH]; intros s g x H; simpl in H.
  - destruct greedy; [|destruct (k s g) eqn:Ek; [injection H as <-; rename Ek into H|
      discriminate]];
      exists [], s; repeat split; auto.
  - set (once := match s with
                 | [] => None
                 | c :: t => if P c then _ else None end) in H.
    assert (Ho : once = Some x ->
                 exists pre s', forallb P pre = true /\ s = pre ++ s' /\ k s' g = Some x).
    { unfold once; intros E. destruct s as [|c t]; [discriminate|].
      destruct (P c) eqn:Ep; [|discriminate].
      destruct (List.length t <? List.length (c :: t))%nat; [|discriminate].
      apply IH in E; destruct E as (pre & s' & Hp & -> & Hk).
      exists (c :: pre), s'; simpl; rewrite Ep, Hp; auto. }
    destruct greedy.
    + destruct once as [y|] eqn:Eo.
      * injection H as <-; apply Ho; reflexivity.
      * exists [], s; repeat split; auto.
    + destruct (k s g) as [y|] eqn:Ek.
      * injection H as <-; exists [], s; repeat split; auto.
      * apply Ho; exact H.
Qed.

Lemma plus_cls {A : Type} (P : N -> bool) s g (k : pystr -> group -> option A) x :
  mtch (plus (Cls P)) s g k = Some x ->
  exists pre s', pre <> [] /\ forallb P pre = true /\ s = pre ++ s' /\ k s' g = Some x.
Proof.
  intros H; unfold plus in H; rewrite mtch_seq in H; simpl in H.
  destruct s as [|c t]; [discriminate|].
  destruct (P c) eqn:Ep; [|discriminate].
  apply star_cls in H; destruct H as (pre & s' & Hp & -> & Hk).
  exists (c :: pre), s'; simpl; rewrite Ep, Hp; repeat split; auto; discriminate.
Qed.

Lemma findall_in (r : regex) (s d : pystr) :
  In d (findall r s) ->
  exists pre s0 s1 g, s = pre ++ s0
    /\ mtch r s0 None (fun s' g => Some (s', g)) = Some (s1, g) /\ d = group1 g.
Proof. apply findall_from_in. Qed.

(** Every item reported for [(\d+)\s*transbordo] is a non-empty run of
    decimal digits. *)
Lemma transbordo_pat1_digits (s d : pystr) :
  In d (findall transbordo_pat1 s) -> d <> [] /\ forallb is_decimal d = true.
Proof.
  intros H. apply findall_in in H; destruct H as (pre & s0 & s1 & g & _ & Hm & ->).
  unfold transbordo_pat1 in Hm; cbn [seqs] in Hm.
  rewrite mtch_seq, mtch_group in Hm.
  apply plus_cls in Hm; destruct Hm as (d & s' & Hne & Hd & -> & Hk).
  apply mtch_sound in Hk; destruct Hk as (s2 & g2 & _ & Hk & Hg).
  rewrite Hg in Hk by (vm_compute; reflexivity).
  injection Hk as _ <-. simpl group1.
  rewrite length_app, firstn_app.
  replace (List.length d + List.length s' - List.length s')%nat with (List.length d) by lia.
  rewrite firstn_all, Nat.sub_diag, firstn_O, app_nil_r.
  split; [exact Hne | exact Hd].
Qed.

Lemma head_seq_cls {A : Type} (p : N -> bool) (Y : regex) s g
      (k : pystr -> group -> option A) x :
  mtch (Seq (Cls p) Y) s g k = Some x ->
  exists c t s' g', s = c :: t /\ p c = true /\ k s' g' = Some x
                    /\ (List.length s' <= List.length t)%nat.
Proof.
  intros H; simpl in H. destruct s as [|c t]; [discriminate|].
  destruct (p c) eqn:Ep; [|discriminate].
  apply mtch_sound in H; destruct H as (s' & g' & Hl & Hk & _).
  exists c, t, s', g'; auto.
Qed.

Lemma head_seq_seq {A : Type} (p : N -> bool) (Y Z : regex) s g
      (k : pystr -> group -> option A) x :
  mtch (Seq (Seq (Cls p) Y) Z) s g k = Some x ->
  exists c t s' g', s = c :: t /\ p c = true /\ k s' g' = Some x
                    /\ (List.length s' <= List.length t)%nat.
Proof.
  intros H; rewrite mtch_seq in H.
  apply head_seq_cls in H; destruct H as (c & t & s1 & g1 & -> & Hp & Hk & Hl).
  apply mtch_sound in Hk; destruct Hk as (s2 & g2 & Hl2 & Hk & _).
  exists c, t, s2, g2; repeat split; auto; lia.
Qed.

(** A group whose body starts with a character of [p] reports a text
    starting with such a character. *)
Lemma findall_group_head (r : regex) (p : N -> bool) :
  (forall s g (k : pystr -> group -> option (pystr * group)) x,
     mtch r s g k = Some x ->
     exists c t s' g', s = c :: t /\ p c = true /\ k s' g' = Some x
                       /\ (List.length s' <= List.length t)%nat) ->
  forall s d, In d (findall (Group r) s) -> exists c t, d = c :: t /\ p c = true.
Proof.
  intros Hr s d H. apply findall_in in H; destruct H as (pre & s0 & s1 & g & _ & Hm & ->).
  rewrite mtch_group in Hm. apply Hr in Hm; destruct Hm as (c & t & s' & g' & -> & Hp & Hk & Hl).
  injection Hk as _ <-.
  exists c, (firstn (List.length t - List.length s') t); split; [|exact Hp].
  change (firstn (S (List.length t) - List.length s') (c :: t)
          = c :: firstn (List.length t - List.length s') t).
  replace (S (List.length t) - List.length s')%nat
    with (S (List.length t - List.length s')) by lia.
  reflexivity.
Qed.

Lemma py_in_self (n : pystr) : py_in n n = true.
Proof.
  pose proof (is_prefix_app n []) as H; rewrite app_nil_r in H.
  destruct n as [|c t]; [reflexivity|].
  change (is_prefix (c :: t) (c :: t) || py_in (c :: t) t = true).
  rewrite H; reflexivity.
Qed.

Lemma py_in_mid (n a b : pystr) : py_in n (a ++ n ++ b) = true.
Proof. apply py_in_app_r, py_in_app_l, py_in_self. Qed.

(** The literal [directo] is found only where the text contains it. *)
Lemma transbordo_pat4_sound (s : pystr) :
  py_in (u "directo") s = false -> findall transbordo_pat4 s = [].
Proof.
  intros Hs. destruct (findall transbordo_pat4 s) as [|d t] eqn:E; [reflexivity|].
  assert (Hin : In d (findall transbordo_pat4 s)) by (rewrite E; left; reflexivity).
  apply findall_in in Hin; destruct Hin as (pre & s0 & s1 & g & -> & Hm & _).
  unfold transbordo_pat4, cs_lit in Hm; rewrite mtch_group in Hm.
  apply lit_cs_spec in Hm; [|vm_compute; discriminate].
  destruct Hm as (s' & -> & _).
  rewrite py_in_mid in Hs; discriminate.
Qed.

Lemma py_isdigit_not_head (c : N) (t : pystr) :
  (c =? 99)%N || (c =? 115)%N = true -> py_isdigit (c :: t) = false.
Proof.
  intros H. apply orb_true_iff in H.
  destruct H as [H | H]; apply N.eqb_eq in H; subst c; reflexivity.
Qed.

Lemma transbordo_pat23_head (s d : pystr) :
  In d (findall transbordo_pat2 s) \/ In d (findall transbordo_pat3 s) ->
  py_isdigit d = false.
Proof.
  intros [H | H].
  - apply (findall_group_head _ (fun c => (c =? 99)%N)) in H.
    + destruct H as (c & t & -> & Hc). apply py_isdigit_not_head.
      rewrite Hc; reflexivity.
    + intros s0 g k x Hm. cbn [seqs] in Hm. unfold cs_lit at 1 in Hm.
      change (u "cambio") with [99; 97; 109; 98; 105; 111]%N in Hm.
      exact (head_seq_seq _ _ _ _ _ _ _ Hm).
  - apply (findall_group_head _ (fun c => (c =? 115)%N)) in H.
    + destruct H as (c & t & -> & Hc). apply py_isdigit_not_head.
      rewrite Hc, orb_true_r; reflexivity.
    + intros s0 g k x Hm. cbn [seqs] in Hm. unfold cs_lit at 1 in Hm.
      change (u "sin") with [115; 105; 110]%N in Hm.
      exact (head_seq_seq _ _ _ _ _ _ _ Hm).
Qed.

(** *** [validate_route] *)

Lemma transbordos_loop_zero (pats : list regex) (rl : pystr) :
  py_in (u "sin transbordo") rl || py_in (u "directo") rl = true ->
  transbordos_loop pats rl 0%N = Ok 0%N.
Proof.
  intros Hb; induction pats as [|p rest IH]; cbn [transbordos_loop]; [reflexivity|].
  destruct (findall p rl) as [|m0 ms]; [exact IH|].
  rewrite Hb; exact IH.
Qed.

Lemma transbordos_step_nondigit (p : regex) (rest : list regex) (rl : pystr) (cur : N) :
  py_in (u "sin transbordo") rl || py_in (u "directo") rl = false ->
  (forall d, In d (findall p rl) -> py_isdigit d = false) ->
  transbordos_loop (p :: rest) rl cur =
  transbordos_loop rest rl (match findall p rl with [] => cur | _ => 1%N end).
Proof.
  intros Hb Hd; cbn [transbordos_loop].
  destruct (findall p rl) as [|m0 ms] eqn:E; [reflexivity|].
  rewrite Hb, (Hd m0 (or_introl eq_refl)); reflexivity.
Qed.

Lemma py_isdigit_decimal (d : pystr) :
  d <> [] -> forallb is_decimal d = true -> py_isdigit d = true.
Proof.
  intros Hne Hd; destruct d as [|c t]; [contradiction Hne; reflexivity|].
  unfold py_isdigit. apply forallb_forall; intros x Hx.
  rewrite forallb_forall in Hd; rewrite (Hd x Hx); reflexivity.
Qed.

Lemma transbordos_loop_value (rl : pystr) :
  transbordos_loop transbordo_patterns rl 0%N =
  Ok (if py_in (u "sin transbordo") rl || py_in (u "directo") rl then 0%N
      else match findall transbordo_pat2 rl, findall transbordo_pat3 rl with
           | [], [] =>
               match findall transbordo_pat1 rl with
               | d :: _ => decimal_value d
               | [] => 0%N
               end
           | _, _ => 1%N
           end).
Proof.
  destruct (py_in (u "sin transbordo") rl || py_in (u "directo") rl) eqn:Hb.
  - apply transbordos_loop_zero; exact Hb.
  - assert (Hdir : py_in (u "directo") rl = false)
      by (apply orb_false_iff in Hb; apply Hb).
    unfold transbordo_patterns.
    assert (H1 : transbordos_loop [transbordo_pat1; transbordo_pat2; transbordo_pat3;
                                   transbordo_pat4] rl 0%N =
                 transbordos_loop [transbordo_pat2; transbordo_pat3; transbordo_pat4] rl
                   (match findall transbordo_pat1 rl with
                    | d :: _ => decimal_value d
                    | [] => 0%N end)).
    { cbn [transbordos_loop].
      destruct (findall transbordo_pat1 rl) as [|d ds] eqn:E; [reflexivity|].
      assert (Hd : d <> [] /\ forallb is_decimal d = true).
      { apply (transbordo_pat1_digits rl); rewrite E; left; reflexivity. }
      rewrite Hb, (py_isdigit_decimal d (proj1 Hd) (proj2 Hd)).
      destruct d as [|c t]; [destruct Hd as [Hne _]; contradiction Hne; reflexivity|].
      unfold py_int; rewrite (proj2 Hd); reflexivity. }
    rewrite H1.
    rewrite transbordos_step_nondigit;
      [| exact Hb | intros d Hd; apply (transbordo_pat23_head rl); left; exact Hd].
    rewrite transbordos_step_nondigit;
      [| exact Hb | intros d Hd; apply (transbordo_pat23_head rl); right; exact Hd].
    cbn [transbordos_loop]. rewrite (transbordo_pat4_sound rl Hdir).
    destruct (findall transbordo_pat2 rl), (findall transbordo_pat3 rl); reflexivity.
Qed.



(** ** Where the routes come from ([_calculate_routes_neo4j]) *)

Lemma fold_result_inv_in {T U : Type} (P : T -> Prop) (f : T -> U -> result T) :
  forall xs,
  (forall a x a', In x xs -> P a -> f a x = Ok a' -> P a') ->
  forall acc res, P acc -> fold_result f acc xs = Ok res -> P res.
Proof.
  intros xs; induction xs as [|x t IH]; simpl; intros Hf acc res Hacc H.
  - inversion H; subst; exact Hacc.
  - destruct (f acc x) as [a|e] eqn:E; simpl in H; [|discriminate].
    refine (IH _ a res (Hf _ _ _ (or_introl eq_refl) Hacc E) H).
    intros; eapply Hf; eauto.
Qed.

Lemma fold_result_measure {T U : Type} (m : T -> nat) (w : U -> nat)
      (f : T -> U -> result T) :
  forall xs,
  (forall a x a', In x xs -> f a x = Ok a' -> (m a' <= m a + w x)%nat) ->
  forall acc res, fold_result f acc xs = Ok res ->
  (m res <= m acc + list_sum (map w xs))%nat.
Proof.
  intros xs; induction xs as [|x t IH]; simpl; intros Hf acc res H.
  - inversion H; subst; lia.
  - destruct (f acc x) as [a|e] eqn:E; simpl in H; [|discriminate].
    assert (Ha := Hf _ _ _ (or_introl eq_refl) E).
    assert (Hr := IH (fun a0 x0 a1 Hin => Hf a0 x0 a1 (or_intror Hin)) a res H).
    lia.
Qed.

Lemma run_single_some : forall graph_path o d row,
  run_single graph_path o d = Ok (Some row) ->
  exists p, graph_path o d = Ok (Some p)
            /\ (2 <= List.length (path_lineas p))%nat
            /\ row = mkRow (path_nodes p) (Z.of_nat (List.length (path_lineas p)))
                           (sum_cambios (path_lineas p)) (path_lineas p).
Proof.
  intros graph_path o d row H; unfold run_single in H.
  destruct (graph_path o d) as [[p|]|e]; simpl in H; inversion H as [H1].
  exists p; split; [reflexivity|].
  unfold cypher_row in H1.
  destruct (List.length (path_lineas p) <? 2)%nat eqn:E; [discriminate|].
  apply Nat.ltb_ge in E. inversion H1; subst; auto.
Qed.

Lemma route_step_from : forall graph_path o cs c ec acc acc',
  In c cs -> In ec (c_estaciones_cercanas c) ->
  Forall (route_from graph_path o cs) acc ->
  route_step graph_path o c acc ec = Ok acc' ->
  Forall (route_from graph_path o cs) acc'.
Proof.
  intros graph_path o cs c ec acc acc' Hc Hec Hacc H; unfold route_step in H.
  destruct (nombre_estacion ec) as [[|x y]|] eqn:En;
    try (inversion H; subst; exact Hacc).
  destruct (run_single graph_path o (x :: y)) as [[row|]|e] eqn:E;
    simpl in H; inversion H; subst; try exact Hacc.
  apply Forall_app; split; [exact Hacc|].
  constructor; [|constructor].
  destruct (run_single_some _ _ _ _ E) as [p [Hp [Hlen Hrow]]]; subst row.
  exists c, ec, p; unfold ruta_of_row; simpl.
  repeat split; auto; discriminate.
Qed.

Lemma calculate_routes_from : forall graph_path o cs rs,
  calculate_routes_neo4j graph_path o cs = Ok rs ->
  Forall (route_from graph_path o cs) rs.
Proof.
  intros graph_path o cs rs H.
  destruct (calculate_routes_sorted_found _ _ _ _ H) as [found [Hf Hs]]; subst rs.
  eapply Permutation_Forall; [symmetry; apply sort_routes_perm|].
  unfold discovered_routes in Hf.
  refine (fold_result_inv_in (Forall (route_from graph_path o cs)) _ cs _ [] found
            (Forall_nil _) Hf).
  intros acc c acc' Hc Hacc Hstep; unfold campus_step in Hstep.
  refine (fold_result_inv_in (Forall (route_from graph_path o cs)) _ _ _ acc acc'
            Hacc Hstep).
  intros; eapply route_step_from; eassumption.
Qed.

Lemma sum_cambios_le_pred : forall t a,
  sum_cambios (a :: t) <= Z.of_nat (List.length t).
Proof.
  induction t as [|b t IH]; intros a; [simpl; lia|].
  change (sum_cambios (a :: b :: t)) with (cambio a b + sum_cambios (b :: t)).
  pose proof (cambio_bound a b); specialize (IH b).
  change (List.length (b :: t)) with (S (List.length t)). lia.
Qed.

Lemma opt_eqb_spec : forall x y, opt_eqb x y = true <-> x = y.
Proof.
  intros [a|] [b|]; simpl; split; intro H; try discriminate; try congruence.
  - apply Z.eqb_eq in H; congruence.
  - inversion H; apply Z.eqb_refl.
Qed.

Lemma dedup_in : forall xs y, In y (dedup xs) <-> In y xs.
Proof.
  induction xs as [|x t IH]; intros y; simpl; [tauto|].
  change (fun y0 => negb (match x, y0 with
                          | Some a, Some b => (a =? b)%Z
                          | None, None => true
                          | _, _ => false end))
    with (fun y0 => negb (opt_eqb x y0)).
  rewrite filter_In, IH.
  split.
  - intros [H|[H _]]; auto.
  - intros [H|H]; auto.
    destruct (opt_eqb x y) eqn:E.
    + left; apply opt_eqb_spec; exact E.
    + right; auto.
Qed.

Lemma dedup_nodup : forall xs, NoDup (dedup xs).
Proof.
  induction xs as [|x t IH]; simpl; [constructor|].
  change (fun y0 => negb (match x, y0 with
                          | Some a, Some b => (a =? b)%Z
                          | None, None => true
                          | _, _ => false end))
    with (fun y0 => negb (opt_eqb x y0)).
  constructor.
  - rewrite filter_In; intros [_ H].
    assert (opt_eqb x x = true) as E by (apply opt_eqb_spec; reflexivity).
    rewrite E in H; discriminate.
  - apply NoDup_filter; exact IH.
Qed.

Lemma route_step_length : forall graph_path o c acc ec acc',
  route_step graph_path o c acc ec = Ok acc' ->
  (List.length acc' <= List.length acc
                       + (if truthy (nombre_estacion ec) then 1 else 0))%nat.
Proof.
  intros graph_path o c acc ec acc' H; unfold route_step in H.
  destruct (nombre_estacion ec) as [[|x y]|]; simpl;
    try (inversion H; subst; lia).
  destruct (run_single graph_path o (x :: y)) as [[row|]|e];
    simpl in H; inversion H; subst; try lia.
  rewrite length_app; simpl; lia.
Qed.

(** X3: Every route of [_calculate_routes_neo4j] is labelled with the name and
    university of one of the given campus entries, and with the name, role
    and walking minutes of one of that campus's nearby stations, a station
    with a non-empty name; the destination is that station. *)
Theorem calculate_routes_provenance : forall graph_path o cs rs r,
  calculate_routes_neo4j graph_path o cs = Ok rs -> In r rs ->
  exists c ec,
    In c cs /\ In ec (c_estaciones_cercanas c)
    /\ r_campus r = c_nombre c /\ r_universidad r = c_universidad c
    /\ nombre_estacion ec = Some (r_estacion_destino r)
    /\ r_estacion_destino r <> []
    /\ r_rol_estacion r = rol ec /\ r_minutos_andando r = minutos_andando ec.
Proof.
  intros graph_path o cs rs r H Hin.
  pose proof (calculate_routes_from _ _ _ _ H) as Hall.
  rewrite Forall_forall in Hall.
  destruct (Hall r Hin) as [c [ec [p Hr]]].
  exists c, ec; tauto.
Qed.

(** X4: Every route of [_calculate_routes_neo4j] is read off a shortest path the
    graph returned from the origin to its destination, of at least two
    relationships: [ruta] is the path's node names, [num_estaciones] its
    number of relationships, [num_cambios_linea] at most that number minus
    one, and [lineas_usadas] holds each line identifier of the path exactly
    once. *)
Theorem calculate_routes_path : forall graph_path o cs rs r,
  calculate_routes_neo4j graph_path o cs = Ok rs -> In r rs ->
  exists p,
    graph_path o (r_estacion_destino r) = Ok (Some p)
    /\ r_ruta r = path_nodes p
    /\ (2 <= List.length (path_lineas p))%nat
    /\ r_num_estaciones r = Z.of_nat (List.length (path_lineas p))
    /\ r_num_cambios_linea r = sum_cambios (path_lineas p)
    /\ 0 <= r_num_cambios_linea r <= r_num_estaciones r - 1
    /\ NoDup (r_lineas_usadas r)
    /\ (forall l, In l (r_lineas_usadas r) <-> In l (path_lineas p)).
Proof.
  intros graph_path o cs rs r H Hin.
  pose proof (calculate_routes_from _ _ _ _ H) as Hall.
  rewrite Forall_forall in Hall.
  destruct (Hall r Hin)
    as (c & ec & p & _ & _ & _ & _ & _ & _ & _ & _ & Hp & Hruta & Hlen & Hn & Hcam & Hl).
  exists p; repeat split; auto.
  - rewrite Hcam; apply sum_cambios_bound.
  - rewrite Hcam, Hn.
    destruct (path_lineas p) as [|a t]; simpl in Hlen; [lia|].
    pose proof (sum_cambios_le_pred t a); simpl List.length; lia.
  - rewrite Hl; apply dedup_nodup.
  - rewrite Hl, dedup_in; auto.
  - rewrite Hl, dedup_in; auto.
Qed.

(** X5: [_calculate_routes_neo4j] yields at most one route per pair of a campus
    entry and a nearby station with a non-empty name. *)
Theorem calculate_routes_count : forall graph_path o cs rs,
  calculate_routes_neo4j graph_path o cs = Ok rs ->
  (List.length rs
   <= list_sum (map (fun c => List.length
                                (filter (fun ec => truthy (nombre_estacion ec))
                                        (c_estaciones_cercanas c))) cs))%nat.
Proof.
  intros graph_path o cs rs H.
  destruct (calculate_routes_sorted_found _ _ _ _ H) as [found [Hf Hs]]; subst rs.
  rewrite (Permutation_length (sort_routes_perm found)).
  unfold discovered_routes in Hf.
  refine (fold_result_measure (@List.length Ruta) _ _ cs _ [] found Hf).
  intros acc c acc' _ Hc; unfold campus_step in Hc.
  pose proof (fold_result_measure (@List.length Ruta)
                (fun ec => if truthy (nombre_estacion ec) then 1%nat else 0%nat) _
                (c_estaciones_cercanas c)
                (fun a x a' _ E => route_step_length _ _ _ _ _ _ E) acc acc' Hc) as Hm.
  enough (list_sum (map (fun ec => if truthy (nombre_estacion ec) then 1%nat else 0%nat)
                        (c_estaciones_cercanas c))
          = List.length (filter (fun ec => truthy (nombre_estacion ec))
                                (c_estaciones_cercanas c))) by lia.
  clear Hc Hm; induction (c_estaciones_cercanas c) as [|ec t IH]; simpl; [reflexivity|].
  destruct (truthy (nombre_estacion ec)); simpl; lia.
Qed.

(** ** What [_retrieve_context] and [compare_methods] report *)

Lemma retrieve_context_shape : forall doc_find graph_path e ctx,
  retrieve_context doc_find graph_path e = Ok ctx ->
  ctx_estacion_origen ctx = estacion_origen e
  /\ ctx_estudio_buscado ctx = estudio e
  /\ (ctx_campus ctx <> [] -> truthy (estudio e) = true)
  /\ (ctx_rutas ctx <> [] ->
      ctx_campus ctx <> []
      /\ exists o, estacion_origen e = Some o /\ o <> []
                   /\ calculate_routes_neo4j graph_path o (ctx_campus ctx)
                      = Ok (ctx_rutas ctx)).
Proof.
  intros doc_find graph_path [origen est] ctx H; unfold retrieve_context in H;
    cbv zeta in H; simpl in H |- *.
  destruct (match est with
            | Some ((_ :: _) as q) => search_campus_mongodb doc_find q
            | _ => Ok [] end) as [campus|err] eqn:Ec; simpl in H; [|discriminate].
  assert (Hcampus : campus <> [] -> truthy est = true).
  { destruct est as [[|x y]|]; simpl; auto; inversion Ec; subst; congruence. }
  destruct origen as [[|x y]|];
    [inversion H; subst; simpl;
     refine (conj eq_refl (conj eq_refl (conj Hcampus _))); congruence | |
     inversion H; subst; simpl;
     refine (conj eq_refl (conj eq_refl (conj Hcampus _))); congruence].
  destruct campus as [|c0 cs];
    [inversion H; subst; simpl;
     refine (conj eq_refl (conj eq_refl (conj Hcampus _))); congruence|].
  destruct (calculate_routes_neo4j graph_path (x :: y) (c0 :: cs)) as [rs|err] eqn:Er;
    simpl in H; [|discriminate].
  inversion H; subst; simpl.
  refine (conj eq_refl (conj eq_refl (conj Hcampus _))).
  intros _; split; [discriminate|].
  exists (x :: y); repeat split; auto; discriminate.
Qed.

(** X7: [_retrieve_context] always returns a context (the store errors are
    caught below it).  It echoes the extracted origin and study; it has
    campus entries only when a non-empty study was extracted, and routes
    only when it also has campus entries and a non-empty origin, the routes
    then being those computed from that origin to those entries. *)
Theorem retrieve_context_guards : forall doc_find graph_path e,
  exists ctx,
    retrieve_context doc_find graph_path e = Ok ctx
    /\ ctx_estacion_origen ctx = estacion_origen e
    /\ ctx_estudio_buscado ctx = estudio e
    /\ (ctx_campus ctx <> [] -> truthy (estudio e) = true)
    /\ (ctx_rutas ctx <> [] ->
        ctx_campus ctx <> []
        /\ exists o, estacion_origen e = Some o /\ o <> []
                     /\ calculate_routes_neo4j graph_path o (ctx_campus ctx)
                        = Ok (ctx_rutas ctx)).
Proof.
  intros doc_find graph_path e.
  destruct (retrieve_context_ok doc_find graph_path e) as [ctx H].
  exists ctx; split; [exact H|].
  exact (retrieve_context_shape _ _ _ _ H).
Qed.

Lemma compare_methods_ctx : forall doc_find graph_path api query ctx,
  retrieve_context doc_find graph_path (extract_entities query) = Ok ctx ->
  exists cmp,
    compare_methods doc_find graph_path api query = Ok cmp
    /\ resp_context (cmp_baseline cmp) = None
    /\ resp_sources (cmp_baseline cmp) = []
    /\ resp_context (cmp_graphrag cmp) = Some ctx
    /\ campus_found cmp = List.length (ctx_campus ctx)
    /\ routes_calculated cmp = List.length (ctx_rutas ctx)
    /\ graphrag_used_context cmp
       = negb (Nat.eqb (List.length (extract_sources ctx)) 0).
Proof.
  intros doc_find graph_path api query ctx Hctx.
  destruct (provider_generate_ok api (baseline_prompt query)) as [tb Hb].
  destruct (provider_generate_ok api
              (build_augmented_prompt query (extract_entities query) ctx)) as [tg Hg].
  unfold compare_methods, baseline_llm, graphrag_recommendation.
  rewrite Hb; cbn [bind]. cbv zeta. rewrite Hctx; cbn [bind]. rewrite Hg; cbn [bind].
  eexists; repeat split.
Qed.

Lemma extract_sources_empty : forall doc_find graph_path e ctx,
  retrieve_context doc_find graph_path e = Ok ctx ->
  Nat.eqb (List.length (extract_sources ctx)) 0
  = Nat.eqb (List.length (ctx_campus ctx)) 0.
Proof.
  intros doc_find graph_path e ctx H.
  destruct (retrieve_context_shape _ _ _ _ H) as [_ [_ [_ Hr]]].
  unfold extract_sources.
  destruct (ctx_campus ctx) as [|c cs]; simpl.
  - destruct (ctx_rutas ctx) as [|r rs]; [reflexivity|].
    destruct (Hr ltac:(discriminate)) as [Hne _]; congruence.
  - destruct (ctx_rutas ctx); reflexivity.
Qed.

Lemma routes_need_campus : forall doc_find graph_path e ctx,
  retrieve_context doc_find graph_path e = Ok ctx ->
  (List.length (ctx_rutas ctx) <> 0 -> List.length (ctx_campus ctx) <> 0)%nat.
Proof.
  intros doc_find graph_path e ctx H Hn Hc.
  destruct (retrieve_context_shape _ _ _ _ H) as [_ [_ [_ Hr]]].
  destruct (ctx_rutas ctx) as [|r rs]; [simpl in Hn; congruence|].
  destruct (Hr ltac:(discriminate)) as [Hne _].
  destruct (ctx_campus ctx); [congruence | simpl in Hc; discriminate].
Qed.

(** X8: [compare_methods] always returns a comparison.  The baseline result
    carries no context and no sources; the GraphRAG result carries the
    context retrieved for the extracted entities, [campus_found] and
    [routes_calculated] count its campus entries and routes, and
    [graphrag_used_context] holds exactly when at least one campus entry
    was found (routes are never found without one). *)
Theorem compare_methods_summary : forall doc_find graph_path api query,
  exists cmp ctx,
    compare_methods doc_find graph_path api query = Ok cmp
    /\ retrieve_context doc_find graph_path (extract_entities query) = Ok ctx
    /\ resp_context (cmp_baseline cmp) = None
    /\ resp_sources (cmp_baseline cmp) = []
    /\ resp_context (cmp_graphrag cmp) = Some ctx
    /\ campus_found cmp = List.length (ctx_campus ctx)
    /\ routes_calculated cmp = List.length (ctx_rutas ctx)
    /\ (routes_calculated cmp <> 0 -> campus_found cmp <> 0)%nat
    /\ graphrag_used_context cmp = negb (Nat.eqb (campus_found cmp) 0).
Proof.
  intros doc_find graph_path api query.
  destruct (retrieve_context_ok doc_find graph_path (extract_entities query))
    as [ctx Hctx].
  destruct (compare_methods_ctx doc_find graph_path api query ctx Hctx)
    as (cmp & Hc & Hb1 & Hb2 & Hg & Hcf & Hrc & Hu).
  exists cmp, ctx; repeat split; auto.
  - rewrite Hcf, Hrc; exact (routes_need_campus _ _ _ _ Hctx).
  - rewrite Hu, Hcf; f_equal; exact (extract_sources_empty _ _ _ _ Hctx).
Qed.

(** ** The benchmark loop ([run_benchmark]) *)

Lemma validate_route_ok : forall response expected,
  exists m, validate_route response expected = Ok m.
Proof.
  intros response expected; unfold validate_route.
  rewrite transbordos_loop_value; cbn [bind]. eexists; reflexivity.
Qed.

Lemma campus_reales_raise : forall cs c,
  In c cs -> c_nombre c = None -> exists e, campus_reales cs = Raise e.
Proof.
  induction cs as [|c0 t IH]; intros c Hin Hn; [destruct Hin|].
  simpl. destruct Hin as [<- | Hin].
  - rewrite Hn; eexists; reflexivity.
  - destruct (c_nombre c0); [|eexists; reflexivity].
    destruct (IH c Hin Hn) as [e E]; rewrite E; cbn [bind]; eexists; reflexivity.
Qed.

Lemma forallb_false_ex {A : Type} (f : A -> bool) : forall l,
  forallb f l = false -> exists x, In x l /\ f x = false.
Proof.
  induction l as [|x t IH]; simpl; [discriminate|].
  destruct (f x) eqn:E; simpl; intros H.
  - destruct (IH H) as [y [Hy Hf]]; exists y; auto.
  - exists x; auto.
Qed.

Lemma benchmark_challenge_result : forall doc_find graph_path api ch ctx,
  retrieve_context doc_find graph_path (extract_entities (ch_query ch)) = Ok ctx ->
  (forallb (fun c => match c_nombre c with Some _ => true | None => false end)
           (ctx_campus ctx) = true ->
   exists r, benchmark_challenge doc_find graph_path api ch = Ok r
             /\ br_challenge_id r = ch_id ch
             /\ br_query r = ch_query ch
             /\ br_campus_found r = List.length (ctx_campus ctx)
             /\ br_routes_calculated r = List.length (ctx_rutas ctx))
  /\ (forallb (fun c => match c_nombre c with Some _ => true | None => false end)
              (ctx_campus ctx) = false ->
      exists e, benchmark_challenge doc_find graph_path api ch = Raise e).
Proof.
  intros doc_find graph_path api ch ctx Hctx.
  destruct (compare_methods_ctx doc_find graph_path api (ch_query ch) ctx Hctx)
    as (cmp & Hc & _ & _ & Hg & _ & _ & _).
  destruct (validate_route_ok (resp_response (cmp_baseline cmp)) (ch_expected ch))
    as [mb Hmb].
  destruct (validate_route_ok (resp_response (cmp_graphrag cmp)) (ch_expected ch))
    as [mg Hmg].
  unfold benchmark_challenge; rewrite Hc; cbn [bind]; rewrite Hmb; cbn [bind];
    rewrite Hmg; cbn [bind]; cbv zeta; rewrite Hg; cbn [context_or_empty].
  unfold detect_hallucinations_graphrag.
  split; intros Hall.
  - destruct (campus_reales_ok (ctx_campus ctx)) as [reales [E _]].
    { intros c Hin Hn. rewrite forallb_forall in Hall.
      specialize (Hall c Hin); rewrite Hn in Hall; discriminate. }
    rewrite E; cbn [bind]. eexists; repeat split.
  - apply forallb_false_ex in Hall; destruct Hall as [c [Hin Hn]].
    destruct (c_nombre c) eqn:En; [discriminate|].
    destruct (campus_reales_raise _ c Hin En) as [e E].
    rewrite E; cbn [bind]; eexists; reflexivity.
Qed.

(** X9: [run_benchmark] keeps, in order, exactly the challenges whose retrieved
    context has no campus entry without a name: for the others
    [detect_hallucinations_graphrag] raises on [campus["nombre"].lower()]
    and the challenge is reported and dropped.  Each kept result counts the
    campus entries and routes of the context retrieved for its query, and
    never has routes without campus entries. *)
Theorem run_benchmark_kept_challenges : forall doc_find graph_path api qs,
  map br_challenge_id (run_benchmark_results doc_find graph_path api qs)
  = map ch_id (filter (fun ch =>
      match retrieve_context doc_find graph_path (extract_entities (ch_query ch)) with
      | Ok ctx => forallb (fun c => match c_nombre c with
                                    | Some _ => true | None => false end)
                          (ctx_campus ctx)
      | Raise _ => false
      end) qs)
  /\ Forall (fun r =>
       exists ctx,
         retrieve_context doc_find graph_path (extract_entities (br_query r)) = Ok ctx
         /\ br_campus_found r = List.length (ctx_campus ctx)
         /\ br_routes_calculated r = List.length (ctx_rutas ctx)
         /\ (br_routes_calculated r <> 0 -> br_campus_found r <> 0)%nat)
       (run_benchmark_results doc_find graph_path api qs).
Proof.
  intros doc_find graph_path api qs.
  induction qs as [|ch t [IH1 IH2]]; [split; [reflexivity | constructor]|].
  destruct (retrieve_context_ok doc_find graph_path (extract_entities (ch_query ch)))
    as [ctx Hctx].
  destruct (benchmark_challenge_result doc_find graph_path api ch ctx Hctx) as [Hok Hko].
  simpl. rewrite Hctx.
  destruct (forallb (fun c => match c_nombre c with
                              | Some _ => true | None => false end)
                    (ctx_campus ctx)) eqn:Ea.
  - destruct (Hok eq_refl) as (r & Hr & Hid & Hq & Hcf & Hrc).
    rewrite Hr; simpl. split; [rewrite Hid, IH1; reflexivity|].
    constructor; [|exact IH2].
    exists ctx; rewrite Hq; repeat split; auto.
    rewrite Hcf, Hrc; exact (routes_need_campus _ _ _ _ Hctx).
  - destruct (Hko eq_refl) as [e He]. rewrite He. split; [exact IH1 | exact IH2].
Qed.

(** ** [MockProvider.generate] on the baseline prompt *)

Lemma is_prefix_nl : forall k s b, existsb (N.eqb 10) k = false ->
  is_prefix k (s ++ 10 :: b)%N = is_prefix k s.
Proof.
  induction k as [|c k IH]; intros s b Hk; [reflexivity|].
  cbn [existsb] in Hk; apply orb_false_iff in Hk; destruct Hk as [Hc Hk].
  destruct s as [|y s]; cbn [app is_prefix].
  - rewrite N.eqb_sym, Hc; reflexivity.
  - rewrite IH by exact Hk; reflexivity.
Qed.

Lemma py_in_nl : forall k a b, k <> [] -> existsb (N.eqb 10) k = false ->
  py_in k (a ++ 10 :: b)%N = py_in k a || py_in k b.
Proof.
  intros k a b Hne Hk; destruct k as [|c k']; [contradiction Hne; reflexivity|].
  induction a as [|x a IH].
  - simpl app. rewrite (py_in_nil c k'); simpl orb.
    change (py_in (c :: k') (10 :: b)%N)
      with (is_prefix (c :: k') (10 :: b)%N || py_in (c :: k') b).
    rewrite <- (app_nil_l (10 :: b)%N), is_prefix_nl by exact Hk.
    destruct k'; reflexivity.
  - change ((x :: a) ++ 10 :: b)%N with (x :: (a ++ 10 :: b))%N.
    change (py_in (c :: k') (x :: (a ++ 10 :: b))%N)
      with (is_prefix (c :: k') (x :: (a ++ 10 :: b))%N || py_in (c :: k') (a ++ 10 :: b)%N).
    change (py_in (c :: k') (x :: a))
      with (is_prefix (c :: k') (x :: a) || py_in (c :: k') a).
    rewrite IH.
    change (x :: (a ++ 10 :: b))%N with ((x :: a) ++ 10 :: b)%N.
    rewrite is_prefix_nl by exact Hk.
    rewrite orb_assoc; reflexivity.
Qed.

Lemma py_in_framed : forall k P q S, k <> [] -> existsb (N.eqb 10) k = false ->
  py_in k (py_lower P) = false -> py_in k (py_lower S) = false ->
  py_in k (py_lower (P ++ nl ++ q ++ nl ++ S)) = py_in k (py_lower q).
Proof.
  intros k P q S Hne Hk HP HS; unfold py_lower in *.
  rewrite !map_app. change (map to_lower nl) with [10%N]. cbn [app].
  rewrite !py_in_nl by assumption. rewrite HP, HS.
  destruct (py_in k (map to_lower q)); reflexivity.
Qed.

(** X10: The mock provider treats the baseline prompt exactly as it treats the
    bare query: the text [baseline_llm] wraps around the query contains none
    of the words the mock looks for ("baseline", "sin contexto",
    "graphrag", "contexto"), so the mock's canned baseline reply is given
    only when the user's query itself contains one of the first two. *)
Theorem mock_baseline_prompt_transparent : forall call_count query,
  mock_generate call_count (baseline_prompt query) = mock_generate call_count query.
Proof.
  intros call_count query.
  pose (P := u "Eres un asistente experto en el Metro de Madrid y las universidades públicas de Madrid." ++ nl ++ nl ++
             u "Responde a la siguiente pregunta basándote únicamente en tu conocimiento general:" ++ nl).
  pose (S := nl ++ u "Proporciona:" ++ nl ++
             u "1. La mejor ruta en metro" ++ nl ++
             u "2. Los campus que ofrecen el estudio mencionado" ++ nl ++
             u "3. Estimación de tiempo de viaje" ++ nl ++
             u "4. Número de transbordos necesarios" ++ nl ++ nl ++
             u "Respuesta:").
  assert (E : baseline_prompt query = P ++ nl ++ query ++ nl ++ S).
  { unfold baseline_prompt, P, S. rewrite <- !app_assoc. reflexivity. }
  unfold mock_generate; rewrite E.
  rewrite (py_in_framed (u "baseline")) by (vm_compute; congruence).
  rewrite (py_in_framed (u "sin contexto")) by (vm_compute; congruence).
  rewrite (py_in_framed (u "graphrag")) by (vm_compute; congruence).
  rewrite (py_in_framed (u "contexto")) by (vm_compute; congruence).
  reflexivity.
Qed.

(** ** What the augmented prompt always shows ([_build_augmented_prompt]) *)

Ltac py_in_piece :=
  match goal with
  | |- py_in ?n ?n = true => apply py_in_self
  | |- py_in ?n (?a ++ ?b) = true =>
      first [ apply py_in_app_l; py_in_piece | apply py_in_app_r; py_in_piece ]
  | |- _ => assumption
  end.

Lemma py_in_enumerate {T : Type} (f : nat -> T -> pystr) (n : pystr) (x : T) :
  forall xs i, In x xs -> (forall j, py_in n (f j x) = true) ->
  py_in n (enumerate_render f i xs) = true.
Proof.
  induction xs as [|y t IH]; intros i Hin Hf; [destruct Hin|].
  cbn [enumerate_render]. destruct Hin as [<- | Hin].
  - apply py_in_app_l; apply Hf.
  - apply py_in_app_r; apply IH; assumption.
Qed.

Lemma py_in_flat_map {T : Type} (f : T -> pystr) (n : pystr) (x : T) :
  forall xs, In x xs -> py_in n (f x) = true -> py_in n (flat_map f xs) = true.
Proof.
  induction xs as [|y t IH]; intros Hin Hf; [destruct Hin|].
  cbn [flat_map]. destruct Hin as [<- | Hin].
  - apply py_in_app_l; exact Hf.
  - apply py_in_app_r; apply IH; assumption.
Qed.

Lemma py_in_join (sep s : pystr) : forall l, In s l -> py_in s (join sep l) = true.
Proof.
  induction l as [|x t IH]; intros Hin; [destruct Hin|].
  destruct Hin as [<- | Hin].
  - destruct t as [|y t']; cbn [join]; [apply py_in_self|].
    apply py_in_app_l; apply py_in_self.
  - destruct t as [|y t']; [destruct Hin|].
    cbn [join]. apply py_in_app_r, py_in_app_r. apply IH; exact Hin.
Qed.

(** X11: The augmented prompt always contains the user's query verbatim, the
    name of every campus entry of the context that has one, the name of
    every study listed under such an entry, and, for each of the first
    three routes, its destination station and every station of its path. *)
Theorem augmented_prompt_shows_context : forall query e ctx,
  let prompt := build_augmented_prompt query e ctx in
  py_in query prompt = true
  /\ (forall c n, In c (ctx_campus ctx) -> c_nombre c = Some n ->
        py_in n prompt = true)
  /\ (forall c es n, In c (ctx_campus ctx) -> In es (c_estudios c) ->
        est_nombre es = Some n -> py_in n prompt = true)
  /\ (forall r, In r (firstn 3 (ctx_rutas ctx)) ->
        py_in (r_estacion_destino r) prompt = true
        /\ forall s, In s (r_ruta r) -> py_in s prompt = true).
Proof.
  intros query e ctx prompt; unfold prompt, build_augmented_prompt.
  split; [|split; [|split]].
  - unfold prompt_header. py_in_piece.
  - intros c n Hc Hn.
    assert (H : py_in n (enumerate_render render_campus 1 (ctx_campus ctx)) = true).
    { apply (py_in_enumerate _ _ c); [exact Hc|].
      intros j; unfold render_campus; rewrite Hn; cbn [fmt_str]. py_in_piece. }
    destruct (ctx_campus ctx) as [|c0 cs]; [destruct Hc|].
    apply py_in_app_r, py_in_app_l; exact H.
  - intros c es n Hc Hes Hn.
    assert (H : py_in n (enumerate_render render_campus 1 (ctx_campus ctx)) = true).
    { apply (py_in_enumerate _ _ c); [exact Hc|].
      intros j; unfold render_campus.
      assert (H' : py_in n (flat_map render_estudio (c_estudios c)) = true).
      { apply (py_in_flat_map _ _ es); [exact Hes|].
        unfold render_estudio; rewrite Hn; cbn [default_str]. py_in_piece. }
      py_in_piece. }
    destruct (ctx_campus ctx) as [|c0 cs]; [destruct Hc|].
    apply py_in_app_r, py_in_app_l; exact H.
  - intros r Hr; split.
    2:{ intros s Hs.
    assert (H : py_in s
                  (enumerate_render render_ruta 1 (firstn 3 (ctx_rutas ctx))) = true).
    { apply (py_in_enumerate _ _ r); [exact Hr|].
      intros j; unfold render_ruta.
      assert (H' : py_in s (join (u " → ") (r_ruta r)) = true)
        by (apply py_in_join; exact Hs).
      py_in_piece. }
    destruct (ctx_rutas ctx) as [|r0 rs]; [destruct Hr|].
    do 8 apply py_in_app_r. apply py_in_app_l; exact H. }
    assert (H : py_in (r_estacion_destino r)
                  (enumerate_render render_ruta 1 (firstn 3 (ctx_rutas ctx))) = true).
    { apply (py_in_enumerate _ _ r); [exact Hr|].
      intros j; unfold render_ruta. py_in_piece. }
    destruct (ctx_rutas ctx) as [|r0 rs]; [destruct Hr|].
    do 8 apply py_in_app_r. apply py_in_app_l; exact H.
Qed.

(** ** The campus search ([_search_campus_mongodb]) *)



(** ** Witnesses *)

Lemma calculate_routes_provenance_witness :
  calculate_routes_neo4j demo_graph (u "Sol") [campus_ucm; campus_sur] = Ok demo_routes
  /\ demo_routes <> []
  /\ Forall (fun r => exists c ec,
                In c [campus_ucm; campus_sur] /\ In ec (c_estaciones_cercanas c)
                /\ r_campus r = c_nombre c
                /\ nombre_estacion ec = Some (r_estacion_destino r)) demo_routes.
Proof.
  assert (H : calculate_routes_neo4j demo_graph (u "Sol") [campus_ucm; campus_sur]
              = Ok demo_routes) by (vm_compute; reflexivity).
  split; [exact H|]. split; [vm_compute; discriminate|].
  apply Forall_forall; intros r Hr.
  destruct (calculate_routes_provenance demo_graph (u "Sol") [campus_ucm; campus_sur]
              demo_routes r H Hr)
    as (c & ec & Hc & Hec & Hn & _ & Hd & _).
  exists c, ec; auto.
Defined.

Lemma calculate_routes_path_witness :
  calculate_routes_neo4j demo_graph (u "Sol") [campus_ucm; campus_sur] = Ok demo_routes
  /\ demo_routes <> []
  /\ Forall (fun r => NoDup (r_lineas_usadas r)
                      /\ 0 <= r_num_cambios_linea r <= r_num_estaciones r - 1)
            demo_routes.
Proof.
  assert (H : calculate_routes_neo4j demo_graph (u "Sol") [campus_ucm; campus_sur]
              = Ok demo_routes) by (vm_compute; reflexivity).
  split; [exact H|]. split; [vm_compute; discriminate|].
  apply Forall_forall; intros r Hr.
  destruct (calculate_routes_path demo_graph (u "Sol") [campus_ucm; campus_sur]
              demo_routes r H Hr)
    as (p & _ & _ & _ & _ & _ & Hb & Hnd & _).
  auto.
Defined.

Lemma calculate_routes_count_witness :
  calculate_routes_neo4j demo_graph (u "Sol") [campus_ucm; campus_sur] = Ok demo_routes
  /\ (List.length demo_routes
      <= list_sum (map (fun c => List.length
                                   (filter (fun ec => truthy (nombre_estacion ec))
                                           (c_estaciones_cercanas c)))
                       [campus_ucm; campus_sur]))%nat.
Proof.
  assert (H : calculate_routes_neo4j demo_graph (u "Sol") [campus_ucm; campus_sur]
              = Ok demo_routes) by (vm_compute; reflexivity).
  split; [exact H|].
  exact (calculate_routes_count demo_graph (u "Sol") [campus_ucm; campus_sur]
           demo_routes H).
Defined.
